(** * Telemarketing dashboard (app_7.py): filtering, aggregation, loading

    A shallow embedding of the Streamlit script [app_7.py].  The script
    is a single [main] that loads an uploaded table with pandas, narrows
    it with one range query on [age] and eight categorical filters,
    computes the percentage distribution of the outcome column [y] and
    renders tables, download buttons and charts.

    The pandas operations the script calls are modelled on tables of
    cells; Python exceptions are modelled by an error monad; the page the
    script renders is modelled as the list of elements it emits.  The
    [st.cache] decorators memoise functions of their arguments and are
    left out. *)

From Stdlib Require Import ZArith QArith List String Ascii Bool Lia.
From Stdlib Require Import Sorting.Sorted Sorting.Permutation OrderedTypeEx.
Import ListNotations.

Local Open Scope string_scope.
Local Open Scope Z_scope.

(** ** Python values and exceptions *)

(** A cell of a table.  [VInt z] is the whole number [z], whether
    pandas holds it as an integer or as a float; [NaN] is the missing
    value pandas puts in an empty cell.  [VFloat w f] is a number that is
    not whole: [w] is the whole number just below it and [f] spells the
    binary digits after the point, first digit outermost, the last digit
    1 being [xH].  So [VFloat 30 1] is 30.5, [VFloat 50 3] is 50.75 and
    [VFloat (-1) 1] is -0.5; every float that is not whole has exactly
    one such form. *)
Inductive value : Type :=
| VInt (z : Z)
| VStr (s : string)
| NaN
| VFloat (whole : Z) (frac : positive).

(** The exceptions that the modelled operations raise. *)
Inductive pyexc : Type :=
| KeyError (key : string)
| AttributeError (attr : string)
| UndefinedVariableError (name : string)
| NameError (name : string)
| TypeError
| ValueError
| IndexError
| ParserError (msg : string).

(** A computation that either returns or raises. *)
Inductive result (A : Type) : Type :=
| Ok (a : A)
| Raise (e : pyexc).

Arguments Ok {A} a.
Arguments Raise {A} e.

Definition bind {A B : Type} (m : result A) (k : A -> result B) : result B :=
  match m with
  | Ok a => k a
  | Raise e => Raise e
  end.

Notation "x <- m ;; k" := (bind m (fun x => k))
  (at level 61, m at next level, right associativity).

Fixpoint mapM {A B : Type} (f : A -> result B) (l : list A) : result (list B) :=
  match l with
  | [] => Ok []
  | a :: l' => b <- f a ;; bs <- mapM f l' ;; Ok (b :: bs)
  end.

(** Equality of cells as the hash table behind [Series.isin] sees it:
    a missing value matches a missing value, a number never matches a
    text.  On a text and the literal ['all'] it is Python's [==]. *)
Definition value_eqb (a b : value) : bool :=
  match a, b with
  | VInt x, VInt y => Z.eqb x y
  | VStr s, VStr t => String.eqb s t
  | NaN, NaN => true
  | VFloat w f, VFloat w' f' => (Z.eqb w w' && Pos.eqb f f')%bool
  | _, _ => false
  end.

(** Membership of a cell in a list of cells: Python's [x in xs] for a
    text [x], and the test [isin] makes for each cell of a series. *)
Definition py_in (x : value) (xs : list value) : bool :=
  existsb (value_eqb x) xs.

(** ** Tables *)

Module Pandas.

(** A row carries its index label and one cell per column. *)
Record row : Type := mkRow { label : Z; cells : list value }.

Record DataFrame : Type := mkDF { columns : list string; rows : list row }.

Fixpoint position (c : string) (cols : list string) : option nat :=
  match cols with
  | [] => None
  | c' :: cols' =>
      if String.eqb c c' then Some O
      else option_map S (position c cols')
  end.

(** [c in df.columns] *)
Definition has_column (df : DataFrame) (c : string) : bool :=
  match position c (columns df) with Some _ => true | None => false end.

(** The cell of row [r] under the column at position [i]. *)
Definition cell_at (i : nat) (r : row) : value := nth i (cells r) NaN.

(** [df[c]]: the column as a series of cells, [KeyError] when absent. *)
Definition getitem (df : DataFrame) (c : string) : result (list value) :=
  match position c (columns df) with
  | Some i => Ok (map (cell_at i) (rows df))
  | None => Raise (KeyError c)
  end.

(** [df.c]: attribute access to a column. *)
Definition getattr (df : DataFrame) (c : string) : result (list value) :=
  match position c (columns df) with
  | Some i => Ok (map (cell_at i) (rows df))
  | None => Raise (AttributeError c)
  end.

(** [series.isin(values)] *)
Definition isin (s : list value) (values : list value) : list bool :=
  map (fun v => py_in v values) s.

(** Boolean indexing [df[mask]] on the rows. *)
Fixpoint select (rs : list row) (mask : list bool) : list row :=
  match rs, mask with
  | r :: rs', b :: mask' =>
      if b then r :: select rs' mask' else select rs' mask'
  | _, _ => []
  end.

Definition getitem_mask (df : DataFrame) (mask : list bool) : DataFrame :=
  mkDF (columns df) (select (rows df) mask).

Fixpoint relabel (n : Z) (rs : list row) : list row :=
  match rs with
  | [] => []
  | r :: rs' => mkRow n (cells r) :: relabel (n + 1) rs'
  end.

(** [df.reset_index(drop=True)] *)
Definition reset_index (df : DataFrame) : DataFrame :=
  mkDF (columns df) (relabel 0 (rows df)).

(** [series >= k] and [series <= k] for an integer [k]: a missing value
    compares false, a text raises [TypeError].  A number that is not
    whole lies strictly between [w] and [w + 1]. *)
Definition ge_scalar (k : Z) (v : value) : result bool :=
  match v with
  | VInt a => Ok (k <=? a)
  | VFloat w _ => Ok (k <=? w)
  | NaN => Ok false
  | VStr _ => Raise TypeError
  end.

Definition le_scalar (k : Z) (v : value) : result bool :=
  match v with
  | VInt a => Ok (a <=? k)
  | VFloat w _ => Ok (w <? k)
  | NaN => Ok false
  | VStr _ => Raise TypeError
  end.

Fixpoint mask_and (m1 m2 : list bool) : list bool :=
  match m1, m2 with
  | a :: m1', b :: m2' => (a && b)%bool :: mask_and m1' m2'
  | _, _ => []
  end.

(** [df.query("age >= @lo and age <= @hi")]: the index labels of the
    kept rows are retained. *)
Definition query_age (df : DataFrame) (lo hi : Z) : result DataFrame :=
  match position "age" (columns df) with
  | None => Raise (UndefinedVariableError "age")
  | Some i =>
      let age := map (cell_at i) (rows df) in
      ge <- mapM (ge_scalar lo) age ;;
      le <- mapM (le_scalar hi) age ;;
      Ok (getitem_mask df (mask_and ge le))
  end.

End Pandas.

Import Pandas.

(** ** The filter step (app_7.py, [multiselect_filter]) *)

Definition multiselect_filter (relatorio : DataFrame) (col : string)
    (selecionados : list value) : result DataFrame :=
  if py_in (VStr "all") selecionados then Ok relatorio
  else
    s <- getitem relatorio col ;;
    Ok (reset_index (getitem_mask relatorio (isin s selecionados))).

(** The widget state of the sidebar form that the filter chain reads. *)
Record selection : Type := mkSel {
  idades : Z * Z;
  jobs_selected : list value;
  marital_selected : list value;
  default_selected : list value;
  housing_selected : list value;
  loan_selected : list value;
  contact_selected : list value;
  month_selected : list value;
  day_of_week_selected : list value
}.

(** The method chain of [main] (lines 130-139). *)
Definition filter_chain (bank : DataFrame) (s : selection) : result DataFrame :=
  b <- query_age bank (fst (idades s)) (snd (idades s)) ;;
  b <- multiselect_filter b "job" (jobs_selected s) ;;
  b <- multiselect_filter b "marital" (marital_selected s) ;;
  b <- multiselect_filter b "default" (default_selected s) ;;
  b <- multiselect_filter b "housing" (housing_selected s) ;;
  b <- multiselect_filter b "loan" (loan_selected s) ;;
  b <- multiselect_filter b "contact" (contact_selected s) ;;
  b <- multiselect_filter b "month" (month_selected s) ;;
  multiselect_filter b "day_of_week" (day_of_week_selected s).

(** ** Aggregation (pandas [value_counts], [sort_index], [max], [min]) *)

Module Aggregate.

Definition isna (v : value) : bool :=
  match v with NaN => true | _ => false end.

Definition dropna (s : list value) : list value :=
  filter (fun v => negb (isna v)) s.

(** The cells other than [v]. *)
Definition differs (v : value) : value -> bool :=
  fun w => negb (value_eqb w v).

(** [series.unique()]: the distinct cells in order of first appearance. *)
Fixpoint unique (s : list value) : list value :=
  match s with
  | [] => []
  | v :: s' => v :: filter (differs v) (unique s')
  end.

Definition count (v : value) (s : list value) : Z :=
  Z.of_nat (List.length (filter (value_eqb v) s)).

Fixpoint insert_by {A : Type} (leb : A -> A -> bool) (x : A) (l : list A) : list A :=
  match l with
  | [] => [x]
  | y :: l' => if leb x y then x :: l else y :: insert_by leb x l'
  end.

Fixpoint sort_by {A : Type} (leb : A -> A -> bool) (l : list A) : list A :=
  match l with
  | [] => []
  | x :: l' => insert_by leb x (sort_by leb l')
  end.

(** [series.value_counts()]: missing values are dropped, the distinct
    values are counted and listed by decreasing count. *)
Definition value_counts (s : list value) : list (value * Z) :=
  let xs := dropna s in
  sort_by (fun a b => snd b <=? snd a)
          (map (fun k => (k, count k xs)) (unique xs)).

(** [series.value_counts(normalize=True)]: every count divided by the
    sum of the counts. *)
Definition value_counts_normalize (s : list value) : list (value * Q) :=
  let vc := value_counts s in
  let total := fold_right Z.add 0 (map snd vc) in
  map (fun kc => (fst kc, (inject_Z (snd kc) / inject_Z total)%Q)) vc.

(** [frame * 100] *)
Definition times100 (d : list (value * Q)) : list (value * Q) :=
  map (fun kp => (fst kp, (snd kp * 100)%Q)) d.

(** The order of the digits after the point: [frac_leb f g] when 0.f is
    at most 0.g. *)
Fixpoint frac_leb (f g : positive) : bool :=
  match f, g with
  | xH, xH => true
  | xH, xO _ => false
  | xH, xI _ => true
  | xO _, xH => true
  | xO f', xO g' => frac_leb f' g'
  | xO _, xI _ => true
  | xI _, xH => false
  | xI _, xO _ => false
  | xI f', xI g' => frac_leb f' g'
  end.

(** The order of numbers, false when an argument is not a number. *)
Definition num_leb (a b : value) : bool :=
  match a, b with
  | VInt x, VInt y => x <=? y
  | VInt x, VFloat w _ => x <=? w
  | VFloat w _, VInt y => w <? y
  | VFloat w f, VFloat w' f' => ((w <? w') || ((w =? w') && frac_leb f f'))%bool
  | _, _ => false
  end.

(** The order of index labels: numbers by size, texts by code point, a
    missing label last. *)
Definition label_leb (a b : value) : bool :=
  match a, b with
  | VStr s, VStr t => String.leb s t
  | _, NaN => true
  | NaN, _ => false
  | _, _ => num_leb a b
  end.

(** A number, whole or not. *)
Definition is_num (v : value) : bool :=
  match v with VInt _ | VFloat _ _ => true | _ => false end.

Definition is_str (v : value) : bool :=
  match v with VStr _ => true | _ => false end.

(** Labels that Python cannot order: a number and a text together. *)
Definition mixed (ks : list value) : bool :=
  (existsb is_num ks && existsb is_str ks)%bool.

(** [frame.sort_index()]: ascending by label, [TypeError] on mixed labels. *)
Definition sort_index (d : list (value * Q)) : result (list (value * Q)) :=
  if mixed (map fst d) then Raise TypeError
  else Ok (sort_by (fun a b => label_leb (fst a) (fst b)) d).

(** The larger and the smaller of two non-missing cells. *)
Definition max2 (a b : value) : result value :=
  match a, b with
  | VInt x, VInt y => Ok (VInt (Z.max x y))
  | VStr s, VStr t => Ok (VStr (if String.leb s t then t else s))
  | VInt _, VFloat _ _ | VFloat _ _, VInt _ | VFloat _ _, VFloat _ _ =>
      Ok (if num_leb a b then b else a)
  | _, _ => Raise TypeError
  end.

Definition min2 (a b : value) : result value :=
  match a, b with
  | VInt x, VInt y => Ok (VInt (Z.min x y))
  | VStr s, VStr t => Ok (VStr (if String.leb s t then s else t))
  | VInt _, VFloat _ _ | VFloat _ _, VInt _ | VFloat _ _, VFloat _ _ =>
      Ok (if num_leb a b then a else b)
  | _, _ => Raise TypeError
  end.

Fixpoint reduce (op : value -> value -> result value) (acc : value)
    (s : list value) : result value :=
  match s with
  | [] => Ok acc
  | v :: s' => acc' <- op acc v ;; reduce op acc' s'
  end.

(** A text together with a number or a missing value: cells that
    [max] and [min] cannot compare. *)
Definition text_among_others (s : list value) : bool :=
  (existsb is_str s && negb (forallb is_str s))%bool.

(** [series.max()] and [series.min()]: a text among numbers or missing
    values raises [TypeError]; otherwise missing values are skipped, and
    with nothing left the answer is the missing value. *)
Definition series_max (s : list value) : result value :=
  if text_among_others s then Raise TypeError
  else
    match dropna s with
    | [] => Ok NaN
    | v :: s' => reduce max2 v s'
    end.

Definition series_min (s : list value) : result value :=
  if text_among_others s then Raise TypeError
  else
    match dropna s with
    | [] => Ok NaN
    | v :: s' => reduce min2 v s'
    end.

Definition is_digit (c : ascii) : bool :=
  let n := nat_of_ascii c in (Nat.leb 48 n && Nat.leb n 57)%bool.

Fixpoint digits (s : string) (acc : Z) : option Z :=
  match s with
  | EmptyString => Some acc
  | String c s' =>
      if is_digit c
      then digits s' (10 * acc + (Z.of_nat (nat_of_ascii c) - 48))
      else None
  end.

Definition parse_int (s : string) : option Z :=
  match s with
  | EmptyString => None
  | String "-" (String c s') => option_map Z.opp (digits (String c s') 0)
  | String "+" (String c s') => digits (String c s') 0
  | _ => digits s 0
  end.

(** [int(x)]: a whole number is itself, a number that is not whole is
    cut toward zero, the missing value raises, a text is read as a
    signed decimal numeral (surrounding blanks and digit grouping, which
    arise only in a text column, are not read). *)
Definition py_int (v : value) : result Z :=
  match v with
  | VInt z => Ok z
  | VFloat w _ => Ok (if 0 <=? w then w else w + 1)
  | NaN => Raise ValueError
  | VStr s => match parse_int s with Some z => Ok z | None => Raise ValueError end
  end.

End Aggregate.

Import Aggregate.

(** A percentage table: the outcome values as index labels and the
    single column [percentage]. *)
Definition Distribution : Type := list (value * Q).

(** Lines 161-163 and 171-173 of [main]:
    [df.y.value_counts(normalize=True).to_frame() * 100], renamed and
    sorted by index. *)
Definition target_perc (df : DataFrame) : result Distribution :=
  y <- getattr df "y" ;;
  sort_index (times100 (value_counts_normalize y)).

(** [int(bank.age.max())] and [int(bank.age.min())] (lines 81-82). *)
Definition max_age (bank : DataFrame) : result Z :=
  age <- getattr bank "age" ;; m <- series_max age ;; py_int m.

Definition min_age (bank : DataFrame) : result Z :=
  age <- getattr bank "age" ;; m <- series_min age ;; py_int m.

(** ** Export ([to_excel]) *)

(** What is written to the workbook, cell by cell.  The bytes of the
    file are produced by xlsxwriter and are not modelled. *)
Inductive xcell : Type :=
| XValue (v : value)
| XNumber (q : Q).

Record workbook : Type := mkBook {
  sheet_name : string;
  header : list string;
  body : list (list xcell)
}.

(** A frame handed to [to_excel]: a data table or a percentage table. *)
Inductive frame : Type :=
| Table (df : DataFrame)
| Perc (d : Distribution).

(** [df.to_excel(writer, index=False, sheet_name='Sheet1')]: the header
    row and the cells, without the index. *)
Definition to_excel (df : frame) : workbook :=
  match df with
  | Table t =>
      mkBook "Sheet1" (columns t)
             (map (fun r => map (fun i => XValue (cell_at i r))
                                (seq 0 (List.length (columns t))))
                  (rows t))
  | Perc d => mkBook "Sheet1" ["percentage"] (map (fun kp => [XNumber (snd kp)]) d)
  end.

(** ** The page *)

Inductive content : Type :=
| Text (s : string)
| Frame (df : DataFrame)
| Names (cols : list string)
| Percentages (d : Distribution).

Inductive chart : Type :=
| BarPair (raw filtered : Distribution)
| PiePair (raw filtered : Distribution).

(** What the script puts on the page, in the order it is emitted.
    [on_column] is 0 for the page itself and 1 or 2 for the two columns
    of [st.columns(2)]. *)
Inductive element : Type :=
| Write (on_column : nat) (x : content)
| Markdown (s : string)
| Error (msg : string)
| DownloadButton (on_column : nat) (data : workbook) (file_name : string)
| Pyplot (c : chart).

(** A run of the script: the elements emitted so far, and either a
    value or the exception that stopped the run. *)
Definition app (A : Type) : Type := (list element * result A)%type.

Definition ret {A : Type} (a : A) : app A := ([], Ok a).

Definition emit (e : element) : app unit := ([e], Ok tt).

Definition lift {A : Type} (r : result A) : app A := ([], r).

Definition app_bind {A B : Type} (m : app A) (k : A -> app B) : app B :=
  match m with
  | (out, Ok a) => let (out', r) := k a in ((out ++ out')%list, r)
  | (out, Raise e) => (out, Raise e)
  end.

Notation "x <~ m ;; k" := (app_bind m (fun x => k))
  (at level 61, m at next level, right associativity).
Notation "m ;;; k" := (app_bind m (fun _ => k))
  (at level 61, right associativity).

Inductive graph : Type := Bar | Pie.

(** [df.head()] *)
Definition head (df : DataFrame) : DataFrame :=
  mkDF (columns df) (firstn 5 (rows df)).

(** The options offered by a multiselect (e.g. lines 90-91):
    [bank.col.unique().tolist()] with ['all'] appended. *)
Definition options (bank : DataFrame) (col : string) : result (list value) :=
  s <- getattr bank col ;; Ok ((unique s ++ [VStr "all"])%list).

(** The state of the form when the user has touched nothing. *)
Definition default_selection (lo hi : Z) : selection :=
  let all := [VStr "all"] in
  mkSel (lo, hi) all all all all all all all all.

Section Loader.

(** The uploaded stream and the two pandas parsers. *)
Variable upload : Type.
Variable read_csv : upload -> string -> result DataFrame.
Variable read_excel : upload -> result DataFrame.

(** [load_data]: the bare [except] catches whatever [read_csv] raises. *)
Definition load_data (file_data : upload) : result DataFrame :=
  match read_csv file_data ";" with
  | Ok df => Ok df
  | Raise _ => read_excel file_data
  end.

(** The distribution block of the raw table (lines 160-167). *)
Definition raw_block (bank_raw : DataFrame) : app (option Distribution) :=
  if has_column bank_raw "y" then
    d <~ lift (target_perc bank_raw) ;;
    emit (Write 0 (Text "### Bank Raw Target Perc:")) ;;;
    emit (Write 0 (Percentages d)) ;;;
    ret (Some d)
  else
    emit (Error "'y' column is missing in the raw data!") ;;;
    ret None.

(** The distribution block of the filtered table (lines 169-179); only
    a [KeyError] is caught. *)
Definition filtered_block (bank : DataFrame) : app (option Distribution) :=
  if has_column bank "y" then
    match target_perc bank with
    | Ok d =>
        emit (Write 0 (Text "### Bank Target Perc:")) ;;;
        emit (Write 0 (Percentages d)) ;;;
        ret (Some d)
    | Raise (KeyError k) =>
        emit (Error ("Error in filter: '" ++ k ++ "'")) ;;;
        ret None
    | Raise e => lift (Raise e)
    end
  else
    emit (Error "'y' column is missing in the filtered data!") ;;;
    ret None.

(** Reading a local variable that an earlier branch may have left
    unassigned. *)
Definition variable {A : Type} (name : string) (v : option A) : app A :=
  match v with
  | Some a => ret a
  | None => lift (Raise (NameError name))
  end.

(** The download blocks of the two percentage tables (lines 182-199). *)
Definition download_block (bank_raw bank : DataFrame)
    (raw_perc perc : option Distribution) : app unit :=
  (if has_column bank_raw "y" then
     d <~ variable "bank_raw_target_perc" raw_perc ;;
     emit (Write 1 (Text "### Original proportion")) ;;;
     emit (Write 1 (Percentages d)) ;;;
     emit (DownloadButton 1 (to_excel (Perc d)) "bank_raw_y.xlsx")
   else ret tt) ;;;
  (if has_column bank "y" then
     d <~ variable "bank_target_perc" perc ;;
     emit (Write 2 (Text "### Proportion of filtered table")) ;;;
     emit (Write 2 (Percentages d)) ;;;
     emit (DownloadButton 2 (to_excel (Perc d)) "bank_y.xlsx")
   else ret tt) ;;;
  emit (Markdown "---").

(** One panel of the bar chart (lines 204-208 and 212-216):
    [sns.barplot] followed by [bar_label] on [containers[0]].  A table
    without entries gives no bar container, and indexing the empty list
    of containers raises [IndexError] (a seaborn that refuses an empty
    table raises from [barplot] itself, at the same place of the run). *)
Definition labelled_bars (d : Distribution) : result unit :=
  match d with
  | [] => Raise IndexError
  | _ :: _ => Ok tt
  end.

(** The chart pair (lines 201-228).  Of the drawing only which pair is
    drawn, and from which tables, is recorded. *)
Definition chart_block (bank_raw bank : DataFrame) (graph_type : graph)
    (raw_perc perc : option Distribution) : app unit :=
  if (has_column bank_raw "y" && has_column bank "y")%bool then
    emit (Write 0 (Text "## Acceptance proportion")) ;;;
    r <~ variable "bank_raw_target_perc" raw_perc ;;
    f <~ variable "bank_target_perc" perc ;;
    match graph_type with
    | Bar =>
        lift (labelled_bars r) ;;;
        lift (labelled_bars f) ;;;
        emit (Pyplot (BarPair r f))
    | Pie => emit (Pyplot (PiePair r f))
    end
  else ret tt.

(** The sidebar form up to the filter chain (lines 76-139): the bounds
    of the slider and the options of the eight multiselects are read
    from the table, then the chain runs on the state of the widgets. *)
Definition form_block (bank : DataFrame) (s : selection) : app DataFrame :=
  _ <~ lift (max_age bank) ;;
  _ <~ lift (min_age bank) ;;
  _ <~ lift (options bank "job") ;;
  _ <~ lift (options bank "marital") ;;
  _ <~ lift (options bank "default") ;;
  _ <~ lift (options bank "housing") ;;
  _ <~ lift (options bank "loan") ;;
  _ <~ lift (options bank "contact") ;;
  _ <~ lift (options bank "month") ;;
  _ <~ lift (options bank "day_of_week") ;;
  lift (filter_chain bank s).

(** [main]: [data_file_1] is what the uploader holds, [graph_type] and
    [s] the state of the widgets of the form.  The sidebar (image,
    uploader, form widgets) takes the input and is not part of the
    recorded page. *)
Definition main (data_file_1 : option upload) (graph_type : graph)
    (s : selection) : app unit :=
  emit (Write 0 (Text "# Telemarketing Analysis")) ;;;
  emit (Markdown "---") ;;;
  match data_file_1 with
  | None => ret tt
  | Some file =>
      bank_raw <~ lift (load_data file) ;;
      let bank := bank_raw in
      emit (Write 0 (Text "## Before filtering")) ;;;
      emit (Write 0 (Frame (head bank_raw))) ;;;
      emit (Write 0 (Text "### Columns in the dataset:")) ;;;
      emit (Write 0 (Names (columns bank))) ;;;
      bank <~ form_block bank s ;;
      emit (Write 0 (Text "## After filtering")) ;;;
      emit (Write 0 (Frame (head bank))) ;;;
      emit (DownloadButton 0 (to_excel (Table bank)) "bank_filtered.xlsx") ;;;
      emit (Markdown "---") ;;;
      emit (Write 0 (Text "### Columns after filtering:")) ;;;
      emit (Write 0 (Names (columns bank))) ;;;
      raw_perc <~ raw_block bank_raw ;;
      perc <~ filtered_block bank ;;
      download_block bank_raw bank raw_perc perc ;;;
      chart_block bank_raw bank graph_type raw_perc perc
  end.

End Loader.

Arguments load_data {upload} read_csv read_excel file_data.
Arguments main {upload} read_csv read_excel data_file_1 graph_type s.

(** ** Specification vocabulary *)

(** The eight categorical steps in the order the chain applies them. *)
Definition selections (s : selection) : list (string * list value) :=
  [ ("job", jobs_selected s); ("marital", marital_selected s);
    ("default", default_selected s); ("housing", housing_selected s);
    ("loan", loan_selected s); ("contact", contact_selected s);
    ("month", month_selected s); ("day_of_week", day_of_week_selected s) ].

(** The cells of the rows, without the index labels. *)
Definition row_values (df : DataFrame) : list (list value) :=
  map cells (rows df).

(** The value a row of cells holds under column [c]. *)
Definition lookup (cols : list string) (r : list value) (c : string) : option value :=
  option_map (fun i => nth i r NaN) (position c cols).

(** The constraint on [age]: [lo <= age <= hi] (for bounds that are
    whole, an age between [w] and [w + 1] is at most [hi] when
    [w < hi]). *)
Definition age_ok (cols : list string) (lo hi : Z) (r : list value) : bool :=
  match lookup cols r "age" with
  | Some (VInt a) => ((lo <=? a) && (a <=? hi))%bool
  | Some (VFloat w _) => ((lo <=? w) && (w <? hi))%bool
  | _ => false
  end.

(** The constraint on one categorical column: the selection is 'all',
    or the value of the row is a member of the selection. *)
Definition category_ok (cols : list string) (r : list value)
    (cs : string * list value) : bool :=
  (py_in (VStr "all") (snd cs)
   || match lookup cols r (fst cs) with
      | Some v => py_in v (snd cs)
      | None => false
      end)%bool.

(** The conjunction of all per-column constraints. *)
Definition satisfies (cols : list string) (s : selection) (r : list value) : bool :=
  (age_ok cols (fst (idades s)) (snd (idades s)) r
   && forallb (category_ok cols r) (selections s))%bool.

(** The nine columns the form reads. *)
Definition form_columns : list string :=
  ["age"; "job"; "marital"; "default"; "housing"; "loan"; "contact";
   "month"; "day_of_week"].

(** The cells of the [age] column (none when the column is absent). *)
Definition age_cells (bank : DataFrame) : list value :=
  match position "age" (columns bank) with
  | Some i => map (cell_at i) (rows bank)
  | None => []
  end.

(** A table the chain can run on: the nine columns are present and no
    age cell holds a text. *)
Definition filterable (bank : DataFrame) : bool :=
  (forallb (has_column bank) form_columns
   && forallb (fun v => negb (is_str v)) (age_cells bank))%bool.

(** Every row has a number, whole or not, in its age cell. *)
Definition ages_numeric (bank : DataFrame) : bool :=
  forallb is_num (age_cells bank).

(** [bank.age.min()] and [bank.age.max()]: the observed extremes, before
    [int] is applied to them. *)
Definition observed_min (bank : DataFrame) : result value :=
  age <- getattr bank "age" ;; series_min age.

Definition observed_max (bank : DataFrame) : result value :=
  age <- getattr bank "age" ;; series_max age.

(** Every categorical selection contains 'all'. *)
Definition all_selected (s : selection) : bool :=
  forallb (fun cs => py_in (VStr "all") (snd cs)) (selections s).

(** Some categorical selection is the empty list. *)
Definition some_empty (s : selection) : bool :=
  existsb (fun cs => match snd cs with [] => true | _ => false end)
          (selections s).

(** [l1] is [l2] with some elements left out, the others in place. *)
Inductive Subseq {A : Type} : list A -> list A -> Prop :=
| Subseq_nil : Subseq [] []
| Subseq_skip : forall x l1 l2, Subseq l1 l2 -> Subseq l1 (x :: l2)
| Subseq_keep : forall x l1 l2, Subseq l1 l2 -> Subseq (x :: l1) (x :: l2).

(** The cells of the outcome column [y] (none when it is absent). *)
Definition outcome_cells (df : DataFrame) : list value :=
  match position "y" (columns df) with
  | Some i => map (cell_at i) (rows df)
  | None => []
  end.

(** Some row has an outcome. *)
Definition some_outcome (df : DataFrame) : bool :=
  existsb (fun v => negb (isna v)) (outcome_cells df).

(** The sum of the percentages of a table. *)
Definition total_percentage (d : Distribution) : Q :=
  fold_right Qplus 0%Q (map snd d).

(** The percentage [pandas] gives the outcome value [k] in the series
    [s]: its count over the number of non-missing cells, times 100. *)
Definition share (s : list value) (k : value) : Q :=
  (inject_Z (count k (dropna s))
   / inject_Z (Z.of_nat (List.length (dropna s))) * 100)%Q.

(** The index labels are in ascending order: every label is below all
    the labels after it. *)
Definition ascending (d : Distribution) : Prop :=
  StronglySorted (fun a b => label_leb a b = true) (map fst d).

(** The page shows a percentage table. *)
Definition shows_percentages (page : list element) : bool :=
  existsb (fun e => match e with
                    | Write _ (Percentages _) => true
                    | _ => false
                    end) page.

(** ** Sample tables *)

Definition sample_columns : list string := (form_columns ++ ["y"])%list.

Definition sample_bank : DataFrame :=
  mkDF sample_columns
    [ mkRow 0 [VInt 30; VStr "admin"; VStr "married"; VStr "no"; VStr "yes";
               VStr "no"; VStr "cellular"; VStr "may"; VStr "mon"; VStr "yes"];
      mkRow 1 [VInt 50; VStr "blue-collar"; VStr "single"; VStr "no"; VStr "no";
               VStr "no"; VStr "telephone"; VStr "jun"; VStr "tue"; VStr "no"];
      mkRow 2 [VInt 41; VStr "admin"; VStr "single"; VStr "unknown"; VStr "yes";
               VStr "yes"; VStr "cellular"; VStr "may"; VStr "fri"; VStr "no"] ].

(** The second row has an empty age cell. *)
Definition missing_age_bank : DataFrame :=
  mkDF sample_columns
    [ mkRow 0 [VInt 30; VStr "admin"; VStr "married"; VStr "no"; VStr "yes";
               VStr "no"; VStr "cellular"; VStr "may"; VStr "mon"; VStr "yes"];
      mkRow 1 [NaN; VStr "blue-collar"; VStr "single"; VStr "no"; VStr "no";
               VStr "no"; VStr "telephone"; VStr "jun"; VStr "tue"; VStr "no"];
      mkRow 2 [VInt 50; VStr "technician"; VStr "single"; VStr "no"; VStr "no";
               VStr "no"; VStr "cellular"; VStr "jul"; VStr "wed"; VStr "no"] ].

(** The ages are 30.5, 41 and 50.75. *)
Definition fractional_age_bank : DataFrame :=
  mkDF sample_columns
    [ mkRow 0 [VFloat 30 1; VStr "admin"; VStr "married"; VStr "no"; VStr "yes";
               VStr "no"; VStr "cellular"; VStr "may"; VStr "mon"; VStr "yes"];
      mkRow 1 [VInt 41; VStr "blue-collar"; VStr "single"; VStr "no"; VStr "no";
               VStr "no"; VStr "telephone"; VStr "jun"; VStr "tue"; VStr "no"];
      mkRow 2 [VFloat 50 3; VStr "technician"; VStr "single"; VStr "no"; VStr "no";
               VStr "no"; VStr "cellular"; VStr "jul"; VStr "wed"; VStr "no"] ].

(** The outcome cell of every row is empty. *)
Definition unanswered_bank : DataFrame :=
  mkDF sample_columns
    [ mkRow 0 [VInt 30; VStr "admin"; VStr "married"; VStr "no"; VStr "yes";
               VStr "no"; VStr "cellular"; VStr "may"; VStr "mon"; NaN];
      mkRow 1 [VInt 50; VStr "blue-collar"; VStr "single"; VStr "no"; VStr "no";
               VStr "no"; VStr "telephone"; VStr "jun"; VStr "tue"; NaN] ].

(** A table without the column [y]. *)
Definition no_outcome_bank : DataFrame :=
  mkDF form_columns
    [ mkRow 0 [VInt 30; VStr "admin"; VStr "married"; VStr "no"; VStr "yes";
               VStr "no"; VStr "cellular"; VStr "may"; VStr "mon"];
      mkRow 1 [VInt 50; VStr "blue-collar"; VStr "single"; VStr "no"; VStr "no";
               VStr "no"; VStr "telephone"; VStr "jun"; VStr "tue"] ].

(** Ages 25 to 45 and the profession 'admin'. *)
Definition sample_selection : selection :=
  let all := [VStr "all"] in
  mkSel (25, 45) [VStr "admin"] all all all all all all all.

(** The rows of [sample_bank] that [sample_selection] keeps. *)
Definition sample_filtered : DataFrame :=
  reset_index (getitem_mask sample_bank [true; false; true]).

(** Every profession deselected. *)
Definition no_job_selection : selection :=
  let all := [VStr "all"] in
  mkSel (30, 50) [] all all all all all all all.

(** The categorical steps as a fold over [selections]. *)
Fixpoint apply_steps (b : DataFrame) (l : list (string * list value)) : result DataFrame :=
  match l with
  | [] => Ok b
  | cs :: l' => b' <- multiselect_filter b (fst cs) (snd cs) ;; apply_steps b' l'
  end.

(** ** Further vocabulary *)

(** The index labels of a table, row by row. *)
Definition labels (df : DataFrame) : list Z := map label (rows df).

(** The labels [0, 1, ..., n-1] of a fresh index. *)
Definition range_index (n : nat) : list Z := map Z.of_nat (seq 0 n).

(** The row has a number in its age cell. *)
Definition aged (cols : list string) (r : list value) : bool :=
  match lookup cols r "age" with
  | Some (VInt _) | Some (VFloat _ _) => true
  | _ => false
  end.

(** No age cell holds a text. *)
Definition no_text_age (bank : DataFrame) : bool :=
  forallb (fun v => negb (is_str v)) (age_cells bank).

(** The first of the eight categorical columns that the table lacks. *)
Definition first_missing (bank : DataFrame) : option string :=
  find (fun c => negb (has_column bank c)) (tl form_columns).

(** The values selected by [sel1] are selected by [sel2]: [sel2] holds
    'all', or it holds every value of [sel1]. *)
Definition covered (sel1 sel2 : list value) : bool :=
  (py_in (VStr "all") sel2 || forallb (fun v => py_in v sel2) sel1)%bool.

(** The selection [s1] is within [s2]: its age range lies inside that of
    [s2], and for every column what it selects is selected by [s2]. *)
Definition within (s1 s2 : selection) : bool :=
  ((fst (idades s2) <=? fst (idades s1))
   && (snd (idades s1) <=? snd (idades s2))
   && forallb (fun p => covered (snd (fst p)) (snd (snd p)))
              (combine (selections s1) (selections s2)))%bool.

(** The step [cs] cannot run on the table: 'all' is not selected and
    the column is absent. *)
Definition blocked (bank : DataFrame) (cs : string * list value) : bool :=
  (negb (py_in (VStr "all") (snd cs)) && negb (has_column bank (fst cs)))%bool.

(** The first categorical step of the chain that cannot run. *)
Definition first_blocked (bank : DataFrame) (s : selection)
    : option (string * list value) :=
  find (blocked bank) (selections s).

(** The outcome column holds a number in one row and a text in another. *)
Definition mixed_outcome_bank : DataFrame :=
  mkDF sample_columns
    [ mkRow 0 [VInt 30; VStr "admin"; VStr "married"; VStr "no"; VStr "yes";
               VStr "no"; VStr "cellular"; VStr "may"; VStr "mon"; VInt 1];
      mkRow 1 [VInt 50; VStr "blue-collar"; VStr "single"; VStr "no"; VStr "no";
               VStr "no"; VStr "telephone"; VStr "jun"; VStr "tue"; VStr "no"] ].

(** A table without the column [loan]. *)
Definition no_loan_bank : DataFrame :=
  mkDF ["age"; "job"; "marital"; "default"; "housing"; "contact"; "month";
        "day_of_week"; "y"]
    [ mkRow 0 [VInt 30; VStr "admin"; VStr "married"; VStr "no"; VStr "yes";
               VStr "cellular"; VStr "may"; VStr "mon"; VStr "yes"];
      mkRow 1 [VInt 50; VStr "blue-collar"; VStr "single"; VStr "no"; VStr "no";
               VStr "telephone"; VStr "jun"; VStr "tue"; VStr "no"] ].

(** A table with the header row only. *)
Definition header_only_bank : DataFrame := mkDF sample_columns [].

(** A table whose age cells are texts. *)
Definition text_age_bank : DataFrame :=
  mkDF ["age"; "job"]
    [ mkRow 0 [VStr "thirty"; VStr "admin"];
      mkRow 1 [VInt 50; VStr "blue-collar"] ].

(** * Properties *)

(** ** Cells, masks and rows *)

Lemma value_eqb_eq (a b : value) : value_eqb a b = true <-> a = b.
Proof.
  destruct a, b; simpl; split; intro H; try congruence; try discriminate.
  - apply Z.eqb_eq in H. now subst.
  - inversion H. apply Z.eqb_refl.
  - apply String.eqb_eq in H. now subst.
  - inversion H. apply String.eqb_refl.
  - apply andb_true_iff in H. destruct H as [H1 H2].
    apply Z.eqb_eq in H1. apply Pos.eqb_eq in H2. now subst.
  - inversion H. now rewrite Z.eqb_refl, Pos.eqb_refl.
Qed.

Lemma py_in_In (x : value) (xs : list value) : py_in x xs = true <-> In x xs.
Proof.
  unfold py_in. rewrite existsb_exists. split.
  - intros [y [Hy E]]. apply value_eqb_eq in E. now subst.
  - intros H. exists x. split; [assumption | now apply value_eqb_eq].
Qed.

Lemma filter_all {A : Type} (f : A -> bool) (l : list A) :
  (forall x, In x l -> f x = true) -> filter f l = l.
Proof.
  induction l as [|a l IH]; simpl; intros H; [reflexivity|].
  rewrite (H a (or_introl eq_refl)). f_equal. apply IH. intros; apply H; now right.
Qed.

Lemma filter_filter {A : Type} (f g : A -> bool) (l : list A) :
  filter g (filter f l) = filter (fun x => (f x && g x)%bool) l.
Proof.
  induction l as [|a l IH]; simpl; [reflexivity|].
  destruct (f a); simpl; [destruct (g a)|]; now rewrite IH.
Qed.

Lemma cells_relabel (n : Z) (rs : list row) :
  map cells (relabel n rs) = map cells rs.
Proof.
  revert n; induction rs as [|r rs IH]; intros n; simpl; [reflexivity|].
  now rewrite IH.
Qed.

Lemma cells_select_isin (i : nat) (vals : list value) (rs : list row) :
  map cells (select rs (isin (map (cell_at i) rs) vals))
  = filter (fun r => existsb (value_eqb (nth i r NaN)) vals) (map cells rs).
Proof.
  induction rs as [|r rs IH]; simpl; [reflexivity|].
  unfold cell_at at 1. unfold py_in at 1.
  destruct (existsb (value_eqb (nth i (cells r) NaN)) vals); simpl;
    now rewrite <- IH.
Qed.

Lemma cells_select_age (i : nat) (lo hi : Z) (rs : list row) (ge le : list bool) :
  mapM (ge_scalar lo) (map (cell_at i) rs) = Ok ge ->
  mapM (le_scalar hi) (map (cell_at i) rs) = Ok le ->
  map cells (select rs (mask_and ge le))
  = filter (fun r => match nth i r NaN with
                     | VInt a => ((lo <=? a) && (a <=? hi))%bool
                     | VFloat w _ => ((lo <=? w) && (w <? hi))%bool
                     | _ => false
                     end) (map cells rs).
Proof.
  revert ge le; induction rs as [|r rs IH]; simpl; intros ge le Hge Hle.
  - inversion Hge; inversion Hle; reflexivity.
  - unfold cell_at at 1 in Hge. unfold cell_at at 1 in Hle.
    destruct (nth i (cells r) NaN) as [a| | |w f] eqn:E; simpl in Hge, Hle;
      try discriminate;
      destruct (mapM (ge_scalar lo) (map (cell_at i) rs)) as [ge'|] eqn:G;
      simpl in Hge; try discriminate;
      destruct (mapM (le_scalar hi) (map (cell_at i) rs)) as [le'|] eqn:L;
      simpl in Hle; try discriminate;
      inversion Hge; inversion Hle; subst; simpl;
      specialize (IH ge' le' eq_refl eq_refl).
    + destruct ((lo <=? a) && (a <=? hi))%bool; simpl; now rewrite IH.
    + exact IH.
    + destruct ((lo <=? w) && (w <? hi))%bool; simpl; now rewrite IH.
Qed.

Lemma mapM_total {A B : Type} (f : A -> result B) (l : list A) :
  (forall a, In a l -> exists b, f a = Ok b) -> exists bs, mapM f l = Ok bs.
Proof.
  induction l as [|a l IH]; simpl; intros H; [now eexists|].
  destruct (H a (or_introl eq_refl)) as [b Hb].
  destruct IH as [bs Hbs]; [intros; apply H; now right|].
  rewrite Hb, Hbs. simpl. now eexists.
Qed.

(** ** The steps of the filter *)

Lemma multiselect_filter_rows relatorio col selecionados out :
  multiselect_filter relatorio col selecionados = Ok out ->
  columns out = columns relatorio /\
  row_values out
  = filter (fun r => category_ok (columns relatorio) r (col, selecionados))
           (row_values relatorio).
Proof.
  unfold multiselect_filter, category_ok, row_values; simpl.
  destruct (py_in (VStr "all") selecionados) eqn:Hall.
  - intros H; inversion H; subst. split; [reflexivity|].
    now rewrite filter_all.
  - unfold getitem, lookup.
    destruct (position col (columns relatorio)) as [i|]; simpl; [|discriminate].
    intros H; inversion H; subst; simpl. split; [reflexivity|].
    rewrite cells_relabel. apply cells_select_isin.
Qed.

Lemma query_age_rows df lo hi out :
  query_age df lo hi = Ok out ->
  columns out = columns df /\
  row_values out = filter (age_ok (columns df) lo hi) (row_values df).
Proof.
  unfold query_age, age_ok, lookup, row_values.
  destruct (position "age" (columns df)) as [i|]; [|discriminate].
  destruct (mapM (ge_scalar lo) (map (cell_at i) (rows df))) as [ge|] eqn:G;
    simpl; [|discriminate].
  destruct (mapM (le_scalar hi) (map (cell_at i) (rows df))) as [le|] eqn:L;
    simpl; [|discriminate].
  intros H; inversion H; subst; simpl. split; [reflexivity|].
  now apply cells_select_age.
Qed.

Lemma apply_steps_rows l : forall b out,
  apply_steps b l = Ok out ->
  columns out = columns b /\
  row_values out
  = filter (fun r => forallb (category_ok (columns b) r) l) (row_values b).
Proof.
  induction l as [|[c sel] l IH]; simpl; intros b out H.
  - inversion H; subst. split; [reflexivity|]. now rewrite filter_all.
  - destruct (multiselect_filter b c sel) as [b'|] eqn:E; simpl in H; [|discriminate].
    apply multiselect_filter_rows in E. destruct E as [Ec Er].
    apply IH in H. destruct H as [Hc Hr].
    split; [congruence|].
    rewrite Hr, Er, filter_filter, Ec. reflexivity.
Qed.

Lemma filter_chain_steps bank s :
  filter_chain bank s
  = b <- query_age bank (fst (idades s)) (snd (idades s)) ;;
    apply_steps b (selections s).
Proof.
  unfold filter_chain, selections, apply_steps; simpl.
  destruct (query_age _ _ _); simpl; [|reflexivity].
  repeat (match goal with
          | |- context [multiselect_filter ?b ?c ?l] =>
              destruct (multiselect_filter b c l); simpl; try reflexivity
          end).
Qed.

(** The chain is one filter by the conjunction of the constraints. *)
Lemma filter_chain_rows bank s out :
  filter_chain bank s = Ok out ->
  columns out = columns bank /\
  row_values out = filter (satisfies (columns bank) s) (row_values bank).
Proof.
  rewrite filter_chain_steps.
  destruct (query_age _ _ _) as [b|] eqn:Q; [|discriminate].
  intros H. change (apply_steps b (selections s) = Ok out) in H.
  apply query_age_rows in Q. destruct Q as [Qc Qr].
  apply apply_steps_rows in H. destruct H as [Hc Hr].
  split; [congruence|].
  rewrite Hr, Qr, filter_filter, Qc. reflexivity.
Qed.

Lemma has_column_position df c :
  has_column df c = true -> exists i, position c (columns df) = Some i.
Proof.
  unfold has_column. destruct (position c (columns df)); [now eexists|discriminate].
Qed.

Lemma filterable_columns bank c :
  filterable bank = true -> In c form_columns -> has_column bank c = true.
Proof.
  unfold filterable. intros H Hc. apply andb_true_iff in H. destruct H as [H _].
  rewrite forallb_forall in H. now apply H.
Qed.

Lemma query_age_total bank lo hi :
  filterable bank = true -> exists b, query_age bank lo hi = Ok b.
Proof.
  intros H.
  destruct (has_column_position bank "age") as [i Hi].
  { apply filterable_columns; [assumption | now left]. }
  unfold filterable in H. apply andb_true_iff in H. destruct H as [_ H].
  unfold age_cells in H. unfold query_age. rewrite Hi in *.
  rewrite forallb_forall in H.
  destruct (mapM_total (ge_scalar lo) (map (cell_at i) (rows bank))) as [ge Hge].
  { intros a Ha. specialize (H a Ha). destruct a; simpl in *; try discriminate; now eexists. }
  destruct (mapM_total (le_scalar hi) (map (cell_at i) (rows bank))) as [le Hle].
  { intros a Ha. specialize (H a Ha). destruct a; simpl in *; try discriminate; now eexists. }
  rewrite Hge, Hle. simpl. now eexists.
Qed.

Lemma multiselect_filter_total b c sel :
  has_column b c = true -> exists out, multiselect_filter b c sel = Ok out.
Proof.
  intros H. apply has_column_position in H. destruct H as [i Hi].
  unfold multiselect_filter, getitem. rewrite Hi.
  destruct (py_in (VStr "all") sel); simpl; now eexists.
Qed.

Lemma has_column_columns b b' c :
  columns b' = columns b -> has_column b' c = has_column b c.
Proof. unfold has_column. now intros ->. Qed.

Lemma apply_steps_total l : forall b,
  forallb (has_column b) (map fst l) = true ->
  exists out, apply_steps b l = Ok out.
Proof.
  induction l as [|[c sel] l IH]; simpl; intros b H; [now eexists|].
  apply andb_true_iff in H. destruct H as [Hc Hl].
  destruct (multiselect_filter_total b c sel Hc) as [b' Hb'].
  rewrite Hb'. simpl.
  apply IH. apply multiselect_filter_rows in Hb'. destruct Hb' as [Ec _].
  rewrite forallb_forall in *. intros x Hx.
  rewrite (has_column_columns b b' x Ec). now apply Hl.
Qed.

Lemma filter_chain_total bank s :
  filterable bank = true -> exists out, filter_chain bank s = Ok out.
Proof.
  intros H. rewrite filter_chain_steps.
  destruct (query_age_total bank (fst (idades s)) (snd (idades s)) H) as [b Hb].
  rewrite Hb. change (exists out, apply_steps b (selections s) = Ok out).
  apply apply_steps_total.
  apply query_age_rows in Hb. destruct Hb as [Ec _].
  rewrite forallb_forall. intros x Hx.
  rewrite (has_column_columns bank b x Ec).
  apply filterable_columns; [assumption|]. right. exact Hx.
Qed.

Lemma Subseq_filter {A : Type} (f : A -> bool) (l : list A) :
  Subseq (filter f l) l.
Proof.
  induction l as [|a l IH]; simpl; [constructor|].
  destruct (f a); now constructor.
Qed.

Lemma select_none (rs : list row) (s : list value) :
  select rs (isin s []) = [].
Proof.
  revert s; induction rs as [|r rs IH]; intros [|v s]; simpl; auto.
Qed.

(** ** The filter pipeline *)

(** C1: on a table with the nine form columns and a numeric age, the
    chain returns a table, and a row is in it if and only if it is in
    the original and satisfies every constraint of the selection: the
    age lies in the range, and for each categorical column the selection
    holds 'all' or holds the value of the row.  The rows of the output
    are the rows of the original filtered by that conjunction. *)
Theorem filter_chain_conjunction (bank : DataFrame) (s : selection) :
  filterable bank = true ->
  exists out,
    filter_chain bank s = Ok out /\
    row_values out = filter (satisfies (columns bank) s) (row_values bank) /\
    forall r, In r (row_values out) <->
              In r (row_values bank) /\ satisfies (columns bank) s r = true.
Proof.
  intros H. destruct (filter_chain_total bank s H) as [out Hout].
  exists out. split; [assumption|].
  apply filter_chain_rows in Hout. destruct Hout as [_ Hr].
  split; [assumption|].
  intros r. rewrite Hr. apply filter_In.
Qed.

(** C8: the filtered table has the columns of the original in the same
    order, and its rows are rows of the original, cells untouched, in
    their original relative order.  (The operations are functions of
    their arguments: the script assigns no cell and uses no in-place
    operation, so the loaded table is the same before and after.) *)
Theorem filter_chain_subset (bank : DataFrame) (s : selection) :
  filterable bank = true ->
  exists out,
    filter_chain bank s = Ok out /\
    columns out = columns bank /\
    Subseq (row_values out) (row_values bank).
Proof.
  intros H. destruct (filter_chain_total bank s H) as [out Hout].
  exists out. split; [assumption|].
  apply filter_chain_rows in Hout. destruct Hout as [Hc Hr].
  split; [assumption|]. rewrite Hr. apply Subseq_filter.
Qed.

(** C3: with an empty selection the step of a column the table has
    returns a table without rows, and a chain in which some categorical
    selection is empty ends with a table without rows. *)
Theorem empty_selection_empties :
  (forall df col, has_column df col = true ->
     multiselect_filter df col [] = Ok (mkDF (columns df) [])) /\
  (forall bank s, filterable bank = true -> some_empty s = true ->
     exists out, filter_chain bank s = Ok out /\ rows out = []).
Proof.
  split.
  - intros df col H. apply has_column_position in H. destruct H as [i Hi].
    unfold multiselect_filter, getitem. rewrite Hi. simpl.
    unfold reset_index, getitem_mask. simpl. now rewrite select_none.
  - intros bank s H Hs. destruct (filter_chain_total bank s H) as [out Hout].
    exists out. split; [assumption|].
    apply filter_chain_rows in Hout. destruct Hout as [_ Hr].
    assert (E : row_values out = []).
    { rewrite Hr. clear Hr. unfold some_empty in Hs. apply existsb_exists in Hs.
      destruct Hs as [[c sel] [Hin Hsel]]. simpl in Hsel.
      destruct sel; [|discriminate].
      induction (row_values bank) as [|r l IH]; simpl; [reflexivity|].
      replace (satisfies (columns bank) s r) with false; [exact IH|].
      symmetry. unfold satisfies. apply andb_false_iff. right.
      apply not_true_is_false. intros F. rewrite forallb_forall in F.
      specialize (F _ Hin). unfold category_ok in F. simpl in F.
      destruct (lookup (columns bank) r c); discriminate. }
    unfold row_values in E. now apply map_eq_nil in E.
Qed.

(** C10: when the selection contains the text 'all', with or without
    other values, the step returns its input table itself, whatever the
    column; so a cell equal to 'all' cannot be singled out. *)
Theorem all_dominates (relatorio : DataFrame) (col : string)
    (selecionados : list value) :
  In (VStr "all") selecionados ->
  multiselect_filter relatorio col selecionados = Ok relatorio.
Proof.
  intros H. unfold multiselect_filter.
  apply py_in_In in H. now rewrite H.
Qed.

(** ** The order of numbers *)

Lemma frac_leb_refl (f : positive) : frac_leb f f = true.
Proof. induction f; simpl; auto. Qed.

Lemma frac_leb_total (f : positive) : forall g,
  frac_leb f g = true \/ frac_leb g f = true.
Proof. induction f; intros [g|g|]; simpl; auto. Qed.

Lemma frac_leb_trans (f : positive) : forall g h,
  frac_leb f g = true -> frac_leb g h = true -> frac_leb f h = true.
Proof.
  induction f; intros [g|g|] [h|h|]; simpl; intros; try discriminate; eauto.
Qed.

Ltac to_lia :=
  repeat rewrite ?Z.leb_le, ?Z.ltb_lt, ?Z.eqb_eq, ?orb_true_iff,
    ?andb_true_iff in *.

Lemma num_leb_refl (a : value) : is_num a = true -> num_leb a a = true.
Proof.
  destruct a; simpl; try discriminate; intros _.
  - apply Z.leb_refl.
  - rewrite Z.eqb_refl, frac_leb_refl. apply orb_true_r.
Qed.

Lemma num_leb_total (a b : value) :
  is_num a = true -> is_num b = true ->
  num_leb a b = true \/ num_leb b a = true.
Proof.
  destruct a as [x| | |w f], b as [y| | |w' f']; simpl; try discriminate;
    intros _ _.
  - to_lia. lia.
  - to_lia. lia.
  - to_lia. lia.
  - destruct (frac_leb_total f f'); to_lia;
      destruct (Z.lt_trichotomy w w') as [L|[E|G]]; auto.
Qed.

Lemma num_leb_trans (a b c : value) :
  num_leb a b = true -> num_leb b c = true -> num_leb a c = true.
Proof.
  destruct a as [x| | |w1 f1], b as [y| | |w2 f2], c as [z| | |w3 f3]; simpl;
    try discriminate; to_lia; try lia.
  intros [L1|[E1 F1]] [L2|[E2 F2]]; try (left; lia).
  right. split; [lia|]. exact (frac_leb_trans _ _ _ F1 F2).
Qed.

Lemma min2_num (a b : value) :
  is_num a = true -> is_num b = true ->
  exists m, min2 a b = Ok m /\ (m = a \/ m = b) /\
            num_leb m a = true /\ num_leb m b = true.
Proof.
  intros Ha Hb.
  assert (G : exists m, (if num_leb a b then a else b) = m /\
                        (m = a \/ m = b) /\
                        num_leb m a = true /\ num_leb m b = true).
  { destruct (num_leb a b) eqn:E; eexists; split; try reflexivity.
    - split; [now left|]. split; [now apply num_leb_refl | assumption].
    - split; [now right|]. split; [|now apply num_leb_refl].
      destruct (num_leb_total a b Ha Hb); congruence. }
  destruct a as [x| | |w f], b as [y| | |w' f']; try discriminate;
    try (destruct G as [m [E G]]; exists m;
         split; [cbn [min2]; now rewrite E | exact G]).
  clear G. exists (VInt (Z.min x y)). split; [reflexivity|]. simpl.
  split; [destruct (Z.min_spec x y) as [[_ ->]|[_ ->]]; auto|].
  to_lia. lia.
Qed.

Lemma max2_num (a b : value) :
  is_num a = true -> is_num b = true ->
  exists m, max2 a b = Ok m /\ (m = a \/ m = b) /\
            num_leb a m = true /\ num_leb b m = true.
Proof.
  intros Ha Hb.
  assert (G : exists m, (if num_leb a b then b else a) = m /\
                        (m = a \/ m = b) /\
                        num_leb a m = true /\ num_leb b m = true).
  { destruct (num_leb a b) eqn:E; eexists; split; try reflexivity.
    - split; [now right|]. split; [assumption | now apply num_leb_refl].
    - split; [now left|]. split; [now apply num_leb_refl|].
      destruct (num_leb_total a b Ha Hb); congruence. }
  destruct a as [x| | |w f], b as [y| | |w' f']; try discriminate;
    try (destruct G as [m [E G]]; exists m;
         split; [cbn [max2]; now rewrite E | exact G]).
  clear G. exists (VInt (Z.max x y)). split; [reflexivity|]. simpl.
  split; [destruct (Z.max_spec x y) as [[_ ->]|[_ ->]]; auto|].
  to_lia. lia.
Qed.

Lemma is_num_or (m a b : value) :
  m = a \/ m = b -> is_num a = true -> is_num b = true -> is_num m = true.
Proof. intros [->| ->]; auto. Qed.

Lemma reduce_min2_nums (s : list value) : forall acc m,
  is_num acc = true -> forallb is_num s = true ->
  reduce min2 acc s = Ok m ->
  is_num m = true /\ (m = acc \/ In m s) /\
  num_leb m acc = true /\ forall v, In v s -> num_leb m v = true.
Proof.
  induction s as [|x s IH]; simpl; intros acc m Ha Hs H.
  - inversion H; subst. repeat split; auto using num_leb_refl; intros v [].
  - apply andb_true_iff in Hs. destruct Hs as [Hx Hs].
    destruct (min2_num acc x Ha Hx) as [a' [E [O [L1 L2]]]].
    rewrite E in H. simpl in H.
    destruct (IH a' m (is_num_or _ _ _ O Ha Hx) Hs H) as [Nm [I [L Hall]]].
    split; [assumption|]. split; [|split].
    + destruct I as [->|I]; [|auto]. destruct O as [->| ->]; auto.
    + exact (num_leb_trans _ _ _ L L1).
    + intros v [<-|Hv]; [exact (num_leb_trans _ _ _ L L2) | now apply Hall].
Qed.

Lemma reduce_max2_nums (s : list value) : forall acc m,
  is_num acc = true -> forallb is_num s = true ->
  reduce max2 acc s = Ok m ->
  is_num m = true /\ (m = acc \/ In m s) /\
  num_leb acc m = true /\ forall v, In v s -> num_leb v m = true.
Proof.
  induction s as [|x s IH]; simpl; intros acc m Ha Hs H.
  - inversion H; subst. repeat split; auto using num_leb_refl; intros v [].
  - apply andb_true_iff in Hs. destruct Hs as [Hx Hs].
    destruct (max2_num acc x Ha Hx) as [a' [E [O [L1 L2]]]].
    rewrite E in H. simpl in H.
    destruct (IH a' m (is_num_or _ _ _ O Ha Hx) Hs H) as [Nm [I [L Hall]]].
    split; [assumption|]. split; [|split].
    + destruct I as [->|I]; [|auto]. destruct O as [->| ->]; auto.
    + exact (num_leb_trans _ _ _ L1 L).
    + intros v [<-|Hv]; [exact (num_leb_trans _ _ _ L2 L) | now apply Hall].
Qed.

Lemma no_text_among_others (s : list value) :
  forallb (fun v => negb (is_str v)) s = true -> text_among_others s = false.
Proof.
  intros H. unfold text_among_others.
  replace (existsb is_str s) with false; [reflexivity|].
  symmetry. induction s as [|v s IH]; simpl in *; [reflexivity|].
  apply andb_true_iff in H. destruct H as [Hv Hs].
  apply negb_true_iff in Hv. rewrite Hv. simpl. auto.
Qed.

Lemma dropna_nums (s : list value) :
  forallb (fun v => negb (is_str v)) s = true ->
  forallb is_num (dropna s) = true.
Proof.
  induction s as [|v s IH]; simpl; intros H; [reflexivity|].
  apply andb_true_iff in H. destruct H as [Hv Hs].
  destruct v; simpl in *; try discriminate; auto.
Qed.

Lemma in_dropna_num (v : value) (s : list value) :
  is_num v = true -> (In v (dropna s) <-> In v s).
Proof.
  intros N. unfold dropna. rewrite filter_In. destruct v; try discriminate;
    simpl; tauto.
Qed.

(** The smallest non-missing cell of a series without text. *)
Lemma series_min_spec (s : list value) (m : value) :
  forallb (fun v => negb (is_str v)) s = true ->
  series_min s = Ok m ->
  m = NaN \/
  (is_num m = true /\ In m s /\
   forall v, In v s -> is_num v = true -> num_leb m v = true).
Proof.
  intros T. unfold series_min. rewrite (no_text_among_others s T).
  pose proof (dropna_nums s T) as D.
  assert (I : forall v, is_num v = true -> In v (dropna s) <-> In v s)
    by (intros; now apply in_dropna_num).
  destruct (dropna s) as [|x s']; [intros H; inversion H; now left|].
  simpl in D. apply andb_true_iff in D. destruct D as [Hx Hs]. intros H.
  destruct (reduce_min2_nums s' x m Hx Hs H) as [Nm [At [L Hall]]].
  right. split; [assumption|]. split.
  - apply (I m Nm). destruct At as [->|At]; [now left | now right].
  - intros v Hv Nv. apply (I v Nv) in Hv.
    destruct Hv as [<-|Hv]; [assumption | now apply Hall].
Qed.

Lemma series_max_spec (s : list value) (m : value) :
  forallb (fun v => negb (is_str v)) s = true ->
  series_max s = Ok m ->
  m = NaN \/
  (is_num m = true /\ In m s /\
   forall v, In v s -> is_num v = true -> num_leb v m = true).
Proof.
  intros T. unfold series_max. rewrite (no_text_among_others s T).
  pose proof (dropna_nums s T) as D.
  assert (I : forall v, is_num v = true -> In v (dropna s) <-> In v s)
    by (intros; now apply in_dropna_num).
  destruct (dropna s) as [|x s']; [intros H; inversion H; now left|].
  simpl in D. apply andb_true_iff in D. destruct D as [Hx Hs]. intros H.
  destruct (reduce_max2_nums s' x m Hx Hs H) as [Nm [At [L Hall]]].
  right. split; [assumption|]. split.
  - apply (I m Nm). destruct At as [->|At]; [now left | now right].
  - intros v Hv Nv. apply (I v Nv) in Hv.
    destruct Hv as [<-|Hv]; [assumption | now apply Hall].
Qed.

Lemma scalars_num_leb (k : Z) (v : value) :
  is_num v = true ->
  ge_scalar k v = Ok (num_leb (VInt k) v) /\
  le_scalar k v = Ok (num_leb v (VInt k)).
Proof. destruct v; try discriminate; intros _; split; reflexivity. Qed.

(** ** The identity law *)

Lemma multiselect_filter_all relatorio col selecionados :
  py_in (VStr "all") selecionados = true ->
  multiselect_filter relatorio col selecionados = Ok relatorio.
Proof. unfold multiselect_filter. now intros ->. Qed.

Lemma apply_steps_all l : forall b,
  forallb (fun cs => py_in (VStr "all") (snd cs)) l = true ->
  apply_steps b l = Ok b.
Proof.
  induction l as [|[c sel] l IH]; simpl; intros b H; [reflexivity|].
  apply andb_true_iff in H. destruct H as [Hc Hl].
  rewrite (multiselect_filter_all b c sel Hc). simpl. now apply IH.
Qed.

Lemma select_in_range (i : nat) (lo hi : Z) (rs : list row) :
  (forall r, In r rs ->
     ge_scalar lo (cell_at i r) = Ok true /\
     le_scalar hi (cell_at i r) = Ok true) ->
  exists ge le,
    mapM (ge_scalar lo) (map (cell_at i) rs) = Ok ge /\
    mapM (le_scalar hi) (map (cell_at i) rs) = Ok le /\
    select rs (mask_and ge le) = rs.
Proof.
  induction rs as [|r rs IH]; simpl; intros H.
  - exists [], []. repeat split.
  - destruct (H r (or_introl eq_refl)) as [Hg Hl].
    destruct IH as [ge [le [Hge [Hle Hs]]]]; [intros; apply H; now right|].
    exists (true :: ge), (true :: le).
    rewrite Hg, Hl, Hge, Hle. simpl. now rewrite Hs.
Qed.

Lemma observed_age_position (bank : DataFrame) (m : value) :
  observed_min bank = Ok m \/ observed_max bank = Ok m ->
  exists i, position "age" (columns bank) = Some i.
Proof.
  unfold observed_min, observed_max, getattr.
  destruct (position "age" (columns bank));
    [now eexists | intros [H|H]; discriminate].
Qed.

Lemma query_age_identity bank lo hi :
  ages_numeric bank = true ->
  observed_min bank = Ok (VInt lo) -> observed_max bank = Ok (VInt hi) ->
  query_age bank lo hi = Ok bank.
Proof.
  intros Hp Hlo Hhi.
  destruct (observed_age_position bank _ (or_introl Hlo)) as [i Hi].
  unfold ages_numeric, age_cells, observed_min, observed_max, getattr in *.
  rewrite Hi in *. simpl in Hlo, Hhi.
  set (s := map (cell_at i) (rows bank)) in *.
  assert (T : forallb (fun v => negb (is_str v)) s = true).
  { rewrite forallb_forall in *. intros v Hv. specialize (Hp v Hv).
    now destruct v. }
  destruct (series_min_spec s _ T Hlo) as [E|[_ [_ L]]]; [discriminate|].
  destruct (series_max_spec s _ T Hhi) as [E|[_ [_ U]]]; [discriminate|].
  unfold query_age. rewrite Hi.
  destruct (select_in_range i lo hi (rows bank)) as [ge [le [Hge [Hle Hs]]]].
  { intros r Hr. rewrite forallb_forall in Hp.
    assert (Hin : In (cell_at i r) s) by (now apply in_map).
    pose proof (Hp _ Hin) as N.
    destruct (scalars_num_leb lo _ N) as [-> _].
    destruct (scalars_num_leb hi _ N) as [_ ->].
    now rewrite (L _ Hin N), (U _ Hin N). }
  cbv zeta. rewrite Hge, Hle. simpl. unfold getitem_mask. rewrite Hs.
  now destruct bank.
Qed.

(** C2 (amended): when every categorical selection holds 'all', every
    row has a number in its age cell, and the age range is the observed
    minimum and maximum of the table (which then are the whole numbers
    the slider offers as its bounds), the chain returns the original
    table, index labels included. *)
Theorem identity_law (bank : DataFrame) (s : selection) (lo hi : Z) :
  all_selected s = true ->
  ages_numeric bank = true ->
  observed_min bank = Ok (VInt lo) ->
  observed_max bank = Ok (VInt hi) ->
  idades s = (lo, hi) ->
  min_age bank = Ok lo /\ max_age bank = Ok hi /\
  filter_chain bank s = Ok bank.
Proof.
  intros Hall Hp Hlo Hhi Hs.
  split; [|split].
  - unfold min_age. unfold observed_min in Hlo.
    destruct (getattr bank "age"); simpl in *; [now rewrite Hlo | discriminate].
  - unfold max_age. unfold observed_max in Hhi.
    destruct (getattr bank "age"); simpl in *; [now rewrite Hhi | discriminate].
  - rewrite filter_chain_steps, Hs. simpl fst; simpl snd.
    rewrite (query_age_identity bank lo hi Hp Hlo Hhi).
    change (apply_steps bank (selections s) = Ok bank).
    now apply apply_steps_all.
Qed.

(** ** Sorting *)

Lemma insert_by_perm {A : Type} (leb : A -> A -> bool) (x : A) (l : list A) :
  Permutation (insert_by leb x l) (x :: l).
Proof.
  induction l as [|y l IH]; simpl; [reflexivity|].
  destruct (leb x y); [reflexivity|].
  rewrite IH. apply perm_swap.
Qed.

Lemma sort_by_perm {A : Type} (leb : A -> A -> bool) (l : list A) :
  Permutation (sort_by leb l) l.
Proof.
  induction l as [|x l IH]; simpl; [reflexivity|].
  rewrite insert_by_perm. now constructor.
Qed.

Lemma insert_by_hd {A : Type} (leb : A -> A -> bool) (x a : A) (l : list A) :
  leb a x = true ->
  HdRel (fun u v => leb u v = true) a l ->
  HdRel (fun u v => leb u v = true) a (insert_by leb x l).
Proof.
  intros Hax H. destruct l as [|y l]; simpl; [now constructor|].
  destruct (leb x y); constructor; [assumption|]. now inversion H.
Qed.

Lemma insert_by_sorted {A : Type} (leb : A -> A -> bool) (x : A) (l : list A) :
  (forall y, In y l -> leb x y = true \/ leb y x = true) ->
  Sorted (fun u v => leb u v = true) l ->
  Sorted (fun u v => leb u v = true) (insert_by leb x l).
Proof.
  induction l as [|y l IH]; simpl; intros T S.
  - repeat constructor.
  - destruct (leb x y) eqn:E.
    + constructor; [assumption | now constructor].
    + inversion S; subst. constructor.
      * apply IH; [intros; apply T; now right | assumption].
      * apply insert_by_hd; [|assumption].
        destruct (T y (or_introl eq_refl)); congruence.
Qed.

Lemma sort_by_sorted {A : Type} (leb : A -> A -> bool) (l : list A) :
  (forall a b, In a l -> In b l -> leb a b = true \/ leb b a = true) ->
  Sorted (fun u v => leb u v = true) (sort_by leb l).
Proof.
  induction l as [|x l IH]; simpl; intros T; [constructor|].
  apply insert_by_sorted.
  - intros y Hy. apply T; [now left|]. right.
    apply (Permutation_in _ (sort_by_perm leb l) Hy).
  - apply IH. intros; apply T; now right.
Qed.

Lemma Sorted_map_fst {A B : Type} (R : A -> A -> Prop) (l : list (A * B)) :
  Sorted (fun a b => R (fst a) (fst b)) l -> Sorted R (map fst l).
Proof.
  induction 1 as [|a l S IH H]; simpl; constructor; [assumption|].
  destruct H; simpl; now constructor.
Qed.

Lemma label_leb_total (a b : value) :
  (is_num a && is_str b)%bool = false ->
  (is_str a && is_num b)%bool = false ->
  label_leb a b = true \/ label_leb b a = true.
Proof.
  destruct a as [x|s| |w f], b as [y|t| |w' f']; intros H1 H2;
    try discriminate H1; try discriminate H2;
    try (match goal with
         | |- label_leb ?a ?b = true \/ _ =>
             exact (num_leb_total a b eq_refl eq_refl)
         end);
    try (simpl; auto; fail).
  apply String.leb_total.
Qed.

Lemma mixed_false (ks : list value) (a b : value) :
  mixed ks = false -> In a ks -> In b ks ->
  (is_num a && is_str b)%bool = false.
Proof.
  unfold mixed. intros M Ha Hb.
  destruct (is_num a) eqn:Ia, (is_str b) eqn:Sb; try reflexivity.
  assert (existsb is_num ks = true) by (apply existsb_exists; eauto).
  assert (existsb is_str ks = true) by (apply existsb_exists; eauto).
  rewrite H, H0 in M. discriminate.
Qed.

(** ** Counting *)

Lemma value_eqb_refl (v : value) : value_eqb v v = true.
Proof. now apply value_eqb_eq. Qed.

Lemma value_eqb_sym (a b : value) : value_eqb a b = value_eqb b a.
Proof.
  destruct (value_eqb a b) eqn:E, (value_eqb b a) eqn:F; try reflexivity.
  - apply value_eqb_eq in E. subst. rewrite value_eqb_refl in F. discriminate.
  - apply value_eqb_eq in F. subst. rewrite value_eqb_refl in E. discriminate.
Qed.

Lemma filter_comm {A : Type} (f g : A -> bool) (l : list A) :
  filter f (filter g l) = filter g (filter f l).
Proof.
  rewrite !filter_filter. apply filter_ext. intros a. apply andb_comm.
Qed.

Lemma filter_idem {A : Type} (f : A -> bool) (l : list A) :
  filter f (filter f l) = filter f l.
Proof.
  rewrite filter_filter. apply filter_ext. intros a. now destruct (f a).
Qed.

Lemma unique_filter (v : value) (l : list value) :
  filter (differs v) (unique l) = unique (filter (differs v) l).
Proof.
  induction l as [|a l IH]; simpl; [reflexivity|].
  destruct (differs v a) eqn:E; simpl.
  - f_equal. rewrite filter_comm, IH. reflexivity.
  - unfold differs in E. apply negb_false_iff, value_eqb_eq in E. subst a.
    rewrite filter_idem. exact IH.
Qed.

Lemma count_cons (k v : value) (l : list value) :
  count k (v :: l) = (if value_eqb k v then 1 else 0) + count k l.
Proof.
  unfold count. cbn [filter]. destruct (value_eqb k v); cbn [List.length]; lia.
Qed.

Lemma count_filter_differs (k v : value) (l : list value) :
  value_eqb k v = false -> count k (filter (differs v) l) = count k l.
Proof.
  intros H. unfold count. f_equal. f_equal.
  rewrite filter_filter. apply filter_ext_in. intros a _.
  unfold differs. destruct (value_eqb k a) eqn:E; [|now rewrite andb_false_r].
  apply value_eqb_eq in E. subst a. now rewrite H.
Qed.

Lemma length_split_count (v : value) (l : list value) :
  Z.of_nat (List.length l) = count v l + Z.of_nat (List.length (filter (differs v) l)).
Proof.
  unfold count, differs. induction l as [|a l IH]; [reflexivity|].
  cbn [filter]. rewrite (value_eqb_sym a v).
  destruct (value_eqb v a); cbn [negb List.length]; lia.
Qed.

Lemma in_unique (k : value) (l : list value) : In k (unique l) -> In k l.
Proof.
  induction l as [|a l IH]; simpl; [tauto|].
  intros [E|H]; [now left|]. right. apply filter_In in H. now apply IH.
Qed.

Lemma sum_counts_ext (f g : value -> Z) (ks : list value) :
  (forall k, In k ks -> f k = g k) ->
  fold_right Z.add 0 (map f ks) = fold_right Z.add 0 (map g ks).
Proof.
  induction ks as [|k ks IH]; simpl; intros H; [reflexivity|].
  rewrite (H k (or_introl eq_refl)), IH; [reflexivity|].
  intros; apply H; now right.
Qed.

(** The counts of the distinct values add up to the number of cells. *)
Lemma sum_counts_unique (n : nat) : forall l, (List.length l <= n)%nat ->
  fold_right Z.add 0 (map (fun k => count k l) (unique l))
  = Z.of_nat (List.length l).
Proof.
  induction n as [|n IH]; intros [|v l] Hn; simpl in *; try reflexivity; try lia.
  rewrite unique_filter.
  rewrite (sum_counts_ext _ (fun k => count k (filter (differs v) l))).
  - rewrite IH.
    + rewrite count_cons, value_eqb_refl.
      pose proof (length_split_count v l). lia.
    + pose proof (filter_length_le (differs v) l). lia.
  - intros k Hk. apply in_unique, filter_In in Hk. destruct Hk as [_ Hk].
    unfold differs in Hk. apply negb_true_iff in Hk.
    rewrite count_cons, Hk. simpl. now rewrite count_filter_differs.
Qed.

Lemma sum_perm (l l' : list Z) :
  Permutation l l' -> fold_right Z.add 0 l = fold_right Z.add 0 l'.
Proof. induction 1; simpl; lia. Qed.

Lemma qsum_perm (l l' : list Q) :
  Permutation l l' -> (fold_right Qplus 0 l == fold_right Qplus 0 l')%Q.
Proof.
  induction 1; simpl.
  - reflexivity.
  - now rewrite IHPermutation.
  - ring.
  - now rewrite IHPermutation1.
Qed.

Lemma qsum_shares (f : value -> Z) (n : Z) (ks : list value) :
  n <> 0 ->
  (fold_right Qplus 0 (map (fun k => inject_Z (f k) / inject_Z n * 100) ks)
   == inject_Z (fold_right Z.add 0%Z (map f ks)) / inject_Z n * 100)%Q.
Proof.
  intros Hn.
  assert (Hq : (~ inject_Z n == 0)%Q).
  { intros E. apply Hn. unfold Qeq in E. simpl in E. lia. }
  induction ks as [|k ks IH]; simpl.
  - field. exact Hq.
  - rewrite IH, inject_Z_plus. field. exact Hq.
Qed.

Lemma string_leb_trans (s t u : string) :
  String.leb s t = true -> String.leb t u = true -> String.leb s u = true.
Proof.
  unfold String.leb.
  destruct (String.compare s t) eqn:A; try discriminate;
    destruct (String.compare t u) eqn:B; try discriminate; intros _ _.
  - apply String.compare_eq_iff in A. subst. now rewrite B.
  - apply String.compare_eq_iff in A. subst. now rewrite B.
  - apply String.compare_eq_iff in B. subst. now rewrite A.
  - apply String_as_OT.cmp_lt in A, B.
    pose proof (String_as_OT.lt_trans _ _ _ A B) as C.
    apply String_as_OT.cmp_lt in C. unfold String_as_OT.cmp in C. now rewrite C.
Qed.

Lemma label_leb_trans (a b c : value) :
  label_leb a b = true -> label_leb b c = true -> label_leb a c = true.
Proof.
  destruct a as [x|s| |w1 f1], b as [y|t| |w2 f2], c as [z|u| |w3 f3];
    intros H1 H2; try discriminate H1; try discriminate H2;
    try reflexivity;
    try (match goal with
         | |- label_leb ?a ?c = true =>
             match type of H1 with
             | label_leb _ ?b = true => exact (num_leb_trans a b c H1 H2)
             end
         end).
  exact (string_leb_trans _ _ _ H1 H2).
Qed.

Lemma Sorted_label_strong (ks : list value) :
  Sorted (fun a b => label_leb a b = true) ks ->
  StronglySorted (fun a b => label_leb a b = true) ks.
Proof.
  apply Sorted_StronglySorted. intros a b c. apply label_leb_trans.
Qed.

(** ** The distribution of the outcome *)

Lemma value_counts_perm (ys : list value) :
  Permutation (value_counts ys)
              (map (fun k => (k, count k (dropna ys))) (unique (dropna ys))).
Proof. unfold value_counts. apply sort_by_perm. Qed.

Lemma value_counts_total (ys : list value) :
  fold_right Z.add 0 (map snd (value_counts ys))
  = Z.of_nat (List.length (dropna ys)).
Proof.
  rewrite (sum_perm _ _ (Permutation_map snd (value_counts_perm ys))).
  rewrite map_map. simpl.
  apply (sum_counts_unique (List.length (dropna ys))). lia.
Qed.

Lemma percentages_perm (ys : list value) :
  Permutation (times100 (value_counts_normalize ys))
              (map (fun k => (k, share ys k)) (unique (dropna ys))).
Proof.
  unfold times100, value_counts_normalize. rewrite value_counts_total, map_map.
  rewrite (Permutation_map _ (value_counts_perm ys)), map_map. reflexivity.
Qed.

Lemma mixed_incl (ks ys : list value) :
  (forall k, In k ks -> In k ys) -> mixed ys = false -> mixed ks = false.
Proof.
  unfold mixed. intros H M.
  destruct (existsb is_num ks) eqn:I, (existsb is_str ks) eqn:S; try reflexivity.
  apply existsb_exists in I. destruct I as [a [Ha Ia]].
  apply existsb_exists in S. destruct S as [b [Hb Sb]].
  assert (existsb is_num ys = true) by (apply existsb_exists; eauto).
  assert (existsb is_str ys = true) by (apply existsb_exists; eauto).
  rewrite H0, H1 in M. discriminate.
Qed.

Lemma in_dropna (k : value) (ys : list value) : In k (dropna ys) -> In k ys.
Proof. unfold dropna. intros H. now apply filter_In in H. Qed.

Lemma percentages_keys (ys : list value) (k : value) :
  In k (map fst (times100 (value_counts_normalize ys))) -> In k ys.
Proof.
  intros H.
  apply (Permutation_in _ (Permutation_map fst (percentages_perm ys))) in H.
  rewrite map_map in H. simpl in H. rewrite map_id in H.
  now apply in_dropna, in_unique.
Qed.

Lemma some_outcome_length (df : DataFrame) :
  some_outcome df = true ->
  Z.of_nat (List.length (dropna (outcome_cells df))) <> 0.
Proof.
  unfold some_outcome, dropna. intros H. apply existsb_exists in H.
  destruct H as [v [Hv Nv]].
  assert (In v (filter (fun v => negb (isna v)) (outcome_cells df)))
    by (apply filter_In; auto).
  destruct (filter _ _); [contradiction | simpl; lia].
Qed.

(** C4 (amended): when the table has the column [y], some row has an
    outcome, and the outcomes are all numbers or all texts, the
    distribution is computed; each distinct outcome gets its count over
    the number of rows that have an outcome, times 100; the percentages
    sum to 100 (in exact arithmetic) and the table is in ascending order
    of the outcome value. *)
Theorem distribution_sums_to_100 (df : DataFrame) :
  has_column df "y" = true ->
  some_outcome df = true ->
  mixed (outcome_cells df) = false ->
  exists d,
    target_perc df = Ok d /\
    (total_percentage d == 100)%Q /\
    ascending d /\
    Permutation d (map (fun k => (k, share (outcome_cells df) k))
                       (unique (dropna (outcome_cells df)))).
Proof.
  intros Hy Hs Hm. unfold target_perc, getattr. unfold outcome_cells in *.
  apply has_column_position in Hy. destruct Hy as [i Hi]. rewrite Hi in *.
  set (ys := map (cell_at i) (rows df)) in *. simpl.
  set (d' := times100 (value_counts_normalize ys)).
  assert (Hk : mixed (map fst d') = false).
  { apply (mixed_incl _ ys); [|assumption]. apply percentages_keys. }
  unfold sort_index. rewrite Hk.
  set (leb := fun a b : value * Q => label_leb (fst a) (fst b)).
  exists (sort_by leb d'). split; [reflexivity|].
  assert (P : Permutation (sort_by leb d')
                          (map (fun k => (k, share ys k)) (unique (dropna ys)))).
  { rewrite sort_by_perm. apply percentages_perm. }
  split; [|split]; [| |exact P].
  - unfold total_percentage.
    rewrite (qsum_perm _ _ (Permutation_map snd P)), map_map. simpl.
    unfold share.
    pose proof (some_outcome_length df) as N. unfold outcome_cells in N.
    rewrite Hi in N. specialize (N Hs). fold ys in N.
    rewrite (qsum_shares (fun k => count k (dropna ys)) _ _ N).
    rewrite (sum_counts_unique (List.length (dropna ys))) by lia.
    field. intros E. apply N. unfold Qeq in E. simpl in E. lia.
  - unfold ascending. apply Sorted_label_strong, Sorted_map_fst.
    apply (sort_by_sorted leb). intros a b Ha Hb. unfold leb.
    apply label_leb_total.
    + apply (mixed_false (map fst d')); [assumption | now apply in_map | now apply in_map].
    + rewrite andb_comm.
      apply (mixed_false (map fst d')); [assumption | now apply in_map | now apply in_map].
Qed.

(** ** The distribution of a table without rows *)

Lemma no_rows_distribution (bank : DataFrame) :
  rows bank = [] -> has_column bank "y" = true -> target_perc bank = Ok [].
Proof.
  intros Hr Hy. apply has_column_position in Hy. destruct Hy as [i Hi].
  unfold target_perc, getattr. now rewrite Hi, Hr.
Qed.

(** C5 (amended): when the filtered table has no rows and has the
    column [y], its distribution is computed without any exception (no
    division by zero arises), it is the table without entries, and that
    table is what the page shows for it. *)
Theorem empty_table_distribution (bank : DataFrame) :
  rows bank = [] ->
  has_column bank "y" = true ->
  filtered_block bank
  = ([Write 0 (Text "### Bank Target Perc:"); Write 0 (Percentages [])],
     Ok (Some [])).
Proof.
  intros Hr Hy. unfold filtered_block.
  now rewrite Hy, (no_rows_distribution bank Hr Hy).
Qed.

(** ** Loading and the page *)

Section LoaderProperties.

Variable upload : Type.
Variable read_csv : upload -> string -> result DataFrame.
Variable read_excel : upload -> result DataFrame.

(** C6: the loader returns what the ';'-separated parse returns when it
    succeeds; when that parse raises, whatever it raises, the loader
    gives the answer of the spreadsheet parse; and when both raise, the
    load raises, and the script stops right after the title without a
    table. *)
Theorem load_data_fallback (file : upload) :
  (forall df, read_csv file ";" = Ok df -> load_data read_csv read_excel file = Ok df) /\
  (forall e, read_csv file ";" = Raise e -> load_data read_csv read_excel file = read_excel file) /\
  (forall e1 e2, read_csv file ";" = Raise e1 -> read_excel file = Raise e2 ->
     load_data read_csv read_excel file = Raise e2 /\
     forall graph_type s,
       main read_csv read_excel (Some file) graph_type s
       = ([Write 0 (Text "# Telemarketing Analysis"); Markdown "---"], Raise e2)).
Proof.
  unfold main, load_data. repeat split.
  - now intros df ->.
  - now intros e ->.
  - now rewrite H, H0.
  - intros. now rewrite H, H0.
Qed.

Lemma options_total (bank : DataFrame) (c : string) :
  has_column bank c = true -> exists l, options bank c = Ok l.
Proof.
  intros H. apply has_column_position in H. destruct H as [i Hi].
  unfold options, getattr. rewrite Hi. simpl. now eexists.
Qed.

Lemma form_block_ok (bank b : DataFrame) (s : selection) (lo hi : Z) :
  filterable bank = true ->
  min_age bank = Ok lo -> max_age bank = Ok hi ->
  filter_chain bank s = Ok b ->
  form_block bank s = ([], Ok b).
Proof.
  intros Hf Hlo Hhi Hb. unfold form_block. rewrite Hlo, Hhi, Hb.
  assert (O : forall c, In c form_columns -> exists l, options bank c = Ok l).
  { intros c Hc. apply options_total. now apply filterable_columns. }
  destruct (O "job") as [? ->]; [simpl; tauto|].
  destruct (O "marital") as [? ->]; [simpl; tauto|].
  destruct (O "default") as [? ->]; [simpl; tauto|].
  destruct (O "housing") as [? ->]; [simpl; tauto|].
  destruct (O "loan") as [? ->]; [simpl; tauto|].
  destruct (O "contact") as [? ->]; [simpl; tauto|].
  destruct (O "month") as [? ->]; [simpl; tauto|].
  destruct (O "day_of_week") as [? ->]; [simpl; tauto|].
  reflexivity.
Qed.

(** C7: when the loaded table lacks the column [y] (and then so does
    the filtered table), the run ends normally; the page shows the
    previews of both tables and the download of the filtered table, one
    error line for the raw and one for the filtered table, and neither a
    percentage table nor a chart. *)
Theorem missing_outcome_is_not_fatal (file : upload) (bank_raw : DataFrame)
    (graph_type : graph) (s : selection) (lo hi : Z) :
  load_data read_csv read_excel file = Ok bank_raw ->
  filterable bank_raw = true ->
  min_age bank_raw = Ok lo ->
  max_age bank_raw = Ok hi ->
  has_column bank_raw "y" = false ->
  exists bank,
    filter_chain bank_raw s = Ok bank /\
    has_column bank "y" = false /\
    main read_csv read_excel (Some file) graph_type s
    = ([ Write 0 (Text "# Telemarketing Analysis");
         Markdown "---";
         Write 0 (Text "## Before filtering");
         Write 0 (Frame (head bank_raw));
         Write 0 (Text "### Columns in the dataset:");
         Write 0 (Names (columns bank_raw));
         Write 0 (Text "## After filtering");
         Write 0 (Frame (head bank));
         DownloadButton 0 (to_excel (Table bank)) "bank_filtered.xlsx";
         Markdown "---";
         Write 0 (Text "### Columns after filtering:");
         Write 0 (Names (columns bank));
         Error "'y' column is missing in the raw data!";
         Error "'y' column is missing in the filtered data!";
         Markdown "---" ],
       Ok tt).
Proof.
  intros Hload Hf Hlo Hhi Hy.
  destruct (filter_chain_total bank_raw s Hf) as [bank Hb].
  assert (Hy' : has_column bank "y" = false).
  { destruct (filter_chain_rows _ _ _ Hb) as [Hc _].
    now rewrite (has_column_columns bank_raw bank "y" Hc). }
  exists bank. split; [assumption|]. split; [assumption|].
  unfold main. rewrite Hload.
  cbn [app_bind emit lift ret app].
  rewrite (form_block_ok bank_raw bank s lo hi Hf Hlo Hhi Hb).
  cbn [app_bind emit lift ret app].
  unfold raw_block, filtered_block, download_block, chart_block.
  rewrite Hy, Hy'. reflexivity.
Qed.

End LoaderProperties.

(** ** Concrete runs *)

(** The scenario of two rows: ages 25 to 40 keep the first row only,
    and its distribution is all 'yes'. *)
Example scenario_two_rows :
  let t := mkDF ["age"; "job"; "y"]
                [ mkRow 0 [VInt 30; VStr "admin"; VStr "yes"];
                  mkRow 1 [VInt 50; VStr "blue-collar"; VStr "no"] ] in
  let kept := mkDF ["age"; "job"; "y"]
                   [ mkRow 0 [VInt 30; VStr "admin"; VStr "yes"] ] in
  query_age t 25 40 = Ok kept /\
  multiselect_filter kept "job" [VStr "all"] = Ok kept /\
  target_perc kept = Ok [(VStr "yes", (100 # 1)%Q)].
Proof. repeat split. Qed.

Lemma filter_chain_conjunction_witness :
  filterable sample_bank = true /\
  exists out,
    filter_chain sample_bank sample_selection = Ok out /\
    row_values out
    = filter (satisfies (columns sample_bank) sample_selection)
             (row_values sample_bank) /\
    forall r, In r (row_values out) <->
              In r (row_values sample_bank) /\
              satisfies (columns sample_bank) sample_selection r = true.
Proof.
  split; [reflexivity|].
  apply (filter_chain_conjunction sample_bank sample_selection). reflexivity.
Defined.

Lemma filter_chain_subset_witness :
  filterable sample_bank = true /\
  exists out,
    filter_chain sample_bank sample_selection = Ok out /\
    columns out = columns sample_bank /\
    Subseq (row_values out) (row_values sample_bank).
Proof.
  split; [reflexivity|].
  apply (filter_chain_subset sample_bank sample_selection). reflexivity.
Defined.

Lemma empty_selection_empties_witness :
  multiselect_filter sample_bank "job" [] = Ok (mkDF (columns sample_bank) []) /\
  exists out, filter_chain sample_bank no_job_selection = Ok out /\ rows out = [].
Proof.
  destruct empty_selection_empties as [A B].
  split; [apply A; reflexivity | apply B; reflexivity].
Defined.

Lemma all_dominates_witness :
  In (VStr "all") [VStr "admin"; VStr "all"] /\
  multiselect_filter sample_bank "job" [VStr "admin"; VStr "all"] = Ok sample_bank.
Proof.
  split; [simpl; auto|].
  apply (all_dominates sample_bank "job" [VStr "admin"; VStr "all"]). simpl; auto.
Defined.

Lemma identity_law_witness :
  observed_min sample_bank = Ok (VInt 30) /\
  observed_max sample_bank = Ok (VInt 50) /\
  min_age sample_bank = Ok 30 /\ max_age sample_bank = Ok 50 /\
  filter_chain sample_bank (default_selection 30 50) = Ok sample_bank.
Proof.
  split; [reflexivity|]. split; [reflexivity|].
  apply (identity_law sample_bank (default_selection 30 50) 30 50); reflexivity.
Defined.

(** A table with an empty age cell: under the default selection, with
    the observed age range, the row without age is dropped. *)
Lemma identity_fails_on_missing_age :
  all_selected (default_selection 30 50) = true /\
  min_age missing_age_bank = Ok 30 /\
  max_age missing_age_bank = Ok 50 /\
  row_values missing_age_bank
  = [ [VInt 30; VStr "admin"; VStr "married"; VStr "no"; VStr "yes";
       VStr "no"; VStr "cellular"; VStr "may"; VStr "mon"; VStr "yes"];
      [NaN; VStr "blue-collar"; VStr "single"; VStr "no"; VStr "no";
       VStr "no"; VStr "telephone"; VStr "jun"; VStr "tue"; VStr "no"];
      [VInt 50; VStr "technician"; VStr "single"; VStr "no"; VStr "no";
       VStr "no"; VStr "cellular"; VStr "jul"; VStr "wed"; VStr "no"] ] /\
  (exists out,
     filter_chain missing_age_bank (default_selection 30 50) = Ok out /\
     row_values out
     = [ [VInt 30; VStr "admin"; VStr "married"; VStr "no"; VStr "yes";
          VStr "no"; VStr "cellular"; VStr "may"; VStr "mon"; VStr "yes"];
         [VInt 50; VStr "technician"; VStr "single"; VStr "no"; VStr "no";
          VStr "no"; VStr "cellular"; VStr "jul"; VStr "wed"; VStr "no"] ]) /\
  filter_chain missing_age_bank (default_selection 30 50) <> Ok missing_age_bank.
Proof.
  repeat split.
  - eexists. split; reflexivity.
  - intros H. vm_compute in H. discriminate H.
Qed.

(** Ages 30.5, 41 and 50.75: the bounds of the slider are 30 and 50,
    and under the default selection the row of age 50.75 is dropped. *)
Lemma slider_default_drops_fractional_age :
  observed_min fractional_age_bank = Ok (VFloat 30 1) /\
  observed_max fractional_age_bank = Ok (VFloat 50 3) /\
  min_age fractional_age_bank = Ok 30 /\
  max_age fractional_age_bank = Ok 50 /\
  (exists out,
     filter_chain fractional_age_bank (default_selection 30 50) = Ok out /\
     row_values out = firstn 2 (row_values fractional_age_bank)) /\
  filter_chain fractional_age_bank (default_selection 30 50)
  <> Ok fractional_age_bank.
Proof.
  repeat split.
  - eexists. split; reflexivity.
  - intros H. vm_compute in H. discriminate H.
Qed.

Lemma distribution_sums_to_100_witness :
  has_column sample_bank "y" = true /\
  exists d,
    target_perc sample_bank = Ok d /\
    (total_percentage d == 100)%Q /\
    ascending d /\
    Permutation d (map (fun k => (k, share (outcome_cells sample_bank) k))
                       (unique (dropna (outcome_cells sample_bank)))).
Proof.
  split; [reflexivity|].
  apply (distribution_sums_to_100 sample_bank); reflexivity.
Defined.

(** A table with rows in which no row has an outcome: the distribution
    has no entry and its percentages sum to 0. *)
Lemma distribution_of_unanswered :
  rows unanswered_bank <> [] /\
  has_column unanswered_bank "y" = true /\
  target_perc unanswered_bank = Ok [] /\
  ~ (total_percentage [] == 100)%Q.
Proof.
  repeat split; try discriminate.
Qed.

Lemma empty_table_distribution_witness :
  filter_chain sample_bank no_job_selection = Ok (mkDF sample_columns []) /\
  filtered_block (mkDF sample_columns [])
  = ([Write 0 (Text "### Bank Target Perc:"); Write 0 (Percentages [])],
     Ok (Some [])).
Proof.
  split; [reflexivity|].
  apply (empty_table_distribution (mkDF sample_columns [])); reflexivity.
Defined.

(** The filtered table has no rows, and the page still shows a
    percentage table for it: the computation is not skipped. *)
Lemma empty_table_not_skipped :
  filter_chain sample_bank no_job_selection = Ok (mkDF sample_columns []) /\
  rows (mkDF sample_columns []) = [] /\
  shows_percentages (fst (filtered_block (mkDF sample_columns []))) = true /\
  snd (filtered_block (mkDF sample_columns [])) = Ok (Some []).
Proof. repeat split. Qed.

Lemma load_data_fallback_witness :
  load_data (upload := unit) (fun _ _ => Raise (ParserError "not delimited text"))
            (fun _ => Raise ValueError) tt = Raise ValueError /\
  forall graph_type s,
    main (upload := unit) (fun _ _ => Raise (ParserError "not delimited text"))
         (fun _ => Raise ValueError) (Some tt) graph_type s
    = ([Write 0 (Text "# Telemarketing Analysis"); Markdown "---"],
       Raise ValueError).
Proof.
  destruct (load_data_fallback unit
              (fun _ _ => Raise (ParserError "not delimited text"))
              (fun _ => Raise ValueError) tt) as [_ [_ H]].
  apply (H (ParserError "not delimited text") ValueError); reflexivity.
Defined.

Lemma missing_outcome_is_not_fatal_witness :
  exists bank,
    filter_chain no_outcome_bank sample_selection = Ok bank /\
    has_column bank "y" = false /\
    main (upload := unit) (fun _ _ => Ok no_outcome_bank) (fun _ => Raise ValueError)
         (Some tt) Bar sample_selection
    = ([ Write 0 (Text "# Telemarketing Analysis");
         Markdown "---";
         Write 0 (Text "## Before filtering");
         Write 0 (Frame (head no_outcome_bank));
         Write 0 (Text "### Columns in the dataset:");
         Write 0 (Names (columns no_outcome_bank));
         Write 0 (Text "## After filtering");
         Write 0 (Frame (head bank));
         DownloadButton 0 (to_excel (Table bank)) "bank_filtered.xlsx";
         Markdown "---";
         Write 0 (Text "### Columns after filtering:");
         Write 0 (Names (columns bank));
         Error "'y' column is missing in the raw data!";
         Error "'y' column is missing in the filtered data!";
         Markdown "---" ],
       Ok tt).
Proof.
  apply (missing_outcome_is_not_fatal unit (fun _ _ => Ok no_outcome_bank)
           (fun _ => Raise ValueError) tt no_outcome_bank Bar sample_selection
           30 50); reflexivity.
Defined.

(** * Further properties of the code *)

(** ** The categorical step *)

Lemma labels_relabel (rs : list row) : forall m : nat,
  map label (relabel (Z.of_nat m) rs) = map Z.of_nat (seq m (List.length rs)).
Proof.
  induction rs as [|r rs IH]; intros m; simpl; [reflexivity|].
  f_equal. replace (Z.of_nat m + 1) with (Z.of_nat (S m)) by lia. apply IH.
Qed.

Lemma length_relabel (n : Z) (rs : list row) :
  List.length (relabel n rs) = List.length rs.
Proof. revert n; induction rs; intros n; simpl; auto. Qed.

Lemma relabel_cells (rs rs' : list row) : forall n,
  map cells rs = map cells rs' -> relabel n rs = relabel n rs'.
Proof.
  revert rs'; induction rs as [|r rs IH]; intros [|r' rs'] n H; simpl in *;
    try discriminate; [reflexivity|].
  injection H as E1 E2. now rewrite E1, (IH rs' (n + 1) E2).
Qed.

Lemma relabel_idem (n : Z) (rs : list row) :
  relabel n (relabel n rs) = relabel n rs.
Proof. apply relabel_cells, cells_relabel. Qed.

Lemma select_all (i : nat) (sel : list value) (rs : list row) :
  (forall r, In r rs -> py_in (cell_at i r) sel = true) ->
  select rs (isin (map (cell_at i) rs) sel) = rs.
Proof.
  induction rs as [|r rs IH]; simpl; intros H; [reflexivity|].
  rewrite (H r (or_introl eq_refl)). f_equal. apply IH. intros; apply H; now right.
Qed.

Lemma in_select (i : nat) (sel : list value) (rs : list row) (r : row) :
  In r (select rs (isin (map (cell_at i) rs) sel)) ->
  py_in (cell_at i r) sel = true.
Proof.
  induction rs as [|r0 rs IH]; simpl; [tauto|].
  destruct (py_in (cell_at i r0) sel) eqn:E; simpl; [|exact IH].
  intros [->|H]; [assumption | now apply IH].
Qed.

Lemma in_relabel (n : Z) (rs : list row) (r : row) :
  In r (relabel n rs) -> exists r0, In r0 rs /\ cells r = cells r0.
Proof.
  revert n; induction rs as [|r0 rs IH]; intros n; simpl; [tauto|].
  intros [<-|H]; [exists r0; auto|].
  destruct (IH _ H) as [r1 [H1 E]]. exists r1; auto.
Qed.

Lemma multiselect_filter_column relatorio col selecionados out :
  py_in (VStr "all") selecionados = false ->
  multiselect_filter relatorio col selecionados = Ok out ->
  has_column relatorio col = true.
Proof.
  unfold multiselect_filter, getitem, has_column. intros ->.
  destruct (position col (columns relatorio)); [reflexivity | discriminate].
Qed.

Lemma multiselect_filter_canonical relatorio col selecionados out :
  py_in (VStr "all") selecionados = false ->
  multiselect_filter relatorio col selecionados = Ok out ->
  relabel 0 (rows out) = rows out.
Proof.
  unfold multiselect_filter, getitem. intros ->.
  destruct (position col (columns relatorio)); [|discriminate]. simpl.
  intros H; inversion H; subst; simpl. apply relabel_idem.
Qed.

Lemma canonical_eq (a b : DataFrame) :
  columns a = columns b -> row_values a = row_values b ->
  relabel 0 (rows a) = rows a -> relabel 0 (rows b) = rows b -> a = b.
Proof.
  destruct a as [ca ra], b as [cb rb]; unfold row_values; simpl.
  intros -> H Ha Hb. f_equal. rewrite <- Ha, <- Hb. now apply relabel_cells.
Qed.

(** When 'all' is not selected and the table lacks the column, the step
    raises [KeyError] with the name of the column. *)
Lemma multiselect_filter_missing_column (relatorio : DataFrame)
    (col : string) (selecionados : list value) :
  py_in (VStr "all") selecionados = false ->
  has_column relatorio col = false ->
  multiselect_filter relatorio col selecionados = Raise (KeyError col).
Proof.
  unfold multiselect_filter, getitem, has_column. intros -> H.
  destruct (position col (columns relatorio)); [discriminate | reflexivity].
Qed.

(** X1: the step is idempotent: applied again, with the same column and
    selection, to the table it returned, it returns that table. *)
Theorem multiselect_filter_idempotent (relatorio : DataFrame)
    (col : string) (selecionados : list value) (out : DataFrame) :
  multiselect_filter relatorio col selecionados = Ok out ->
  multiselect_filter out col selecionados = Ok out.
Proof.
  intros H. destruct (py_in (VStr "all") selecionados) eqn:A.
  - now apply multiselect_filter_all.
  - pose proof (multiselect_filter_canonical _ _ _ _ A H) as C.
    revert H. unfold multiselect_filter, getitem. rewrite A.
    destruct (position col (columns relatorio)) as [i|] eqn:P; [|discriminate].
    simpl. intros H; inversion H; subst; simpl in *. rewrite P. simpl.
    unfold reset_index, getitem_mask. simpl. f_equal. f_equal.
    rewrite select_all; [apply relabel_idem|].
    intros r Hr. apply in_relabel in Hr. destruct Hr as [r0 [H0 E]].
    apply in_select in H0. unfold cell_at in *. now rewrite E.
Qed.

(** X2: two steps commute: filtering by one column and then by another
    gives the same table as filtering in the other order. *)
Theorem multiselect_filter_commute (df a b : DataFrame) (c1 c2 : string)
    (s1 s2 : list value) :
  multiselect_filter df c1 s1 = Ok a ->
  multiselect_filter a c2 s2 = Ok b ->
  exists a', multiselect_filter df c2 s2 = Ok a' /\
             multiselect_filter a' c1 s1 = Ok b.
Proof.
  intros Ha Hb.
  destruct (py_in (VStr "all") s1) eqn:A1.
  { rewrite (multiselect_filter_all df c1 s1 A1) in Ha. inversion Ha; subst a.
    exists b. split; [assumption | now apply multiselect_filter_all]. }
  destruct (py_in (VStr "all") s2) eqn:A2.
  { rewrite (multiselect_filter_all a c2 s2 A2) in Hb. inversion Hb; subst b.
    exists df. split; [now apply multiselect_filter_all | assumption]. }
  pose proof (multiselect_filter_column _ _ _ _ A1 Ha) as K1.
  pose proof (multiselect_filter_column _ _ _ _ A2 Hb) as K2.
  destruct (multiselect_filter_rows _ _ _ _ Ha) as [Ca Ra].
  destruct (multiselect_filter_rows _ _ _ _ Hb) as [Cb Rb].
  rewrite (has_column_columns df a c2 Ca) in K2.
  destruct (multiselect_filter_total df c2 s2 K2) as [a' Ha'].
  destruct (multiselect_filter_rows _ _ _ _ Ha') as [Ca' Ra'].
  rewrite <- (has_column_columns df a' c1 Ca') in K1.
  destruct (multiselect_filter_total a' c1 s1 K1) as [b' Hb'].
  destruct (multiselect_filter_rows _ _ _ _ Hb') as [Cb' Rb'].
  exists a'. split; [assumption|]. rewrite Hb'. f_equal.
  apply canonical_eq.
  - congruence.
  - rewrite Rb', Ra', Rb, Ra, Ca, Ca'. apply filter_comm.
  - exact (multiselect_filter_canonical _ _ _ _ A1 Hb').
  - exact (multiselect_filter_canonical _ _ _ _ A2 Hb).
Qed.

(** ** The age step *)

Lemma Subseq_nil_l {A : Type} (l : list A) : Subseq [] l.
Proof. induction l; now constructor. Qed.

Lemma Subseq_select (rs : list row) : forall mask, Subseq (select rs mask) rs.
Proof.
  induction rs as [|r rs IH]; intros [|b mask]; simpl;
    try apply Subseq_nil_l.
  destruct b; constructor; apply IH.
Qed.

Lemma mapM_ge_text (lo : Z) (vs : list value) :
  existsb is_str vs = true -> mapM (ge_scalar lo) vs = Raise TypeError.
Proof.
  induction vs as [|v vs IH]; simpl; [discriminate|].
  destruct v as [a|s| |w f]; simpl; try reflexivity; intros H; now rewrite (IH H).
Qed.

Lemma age_position (df : DataFrame) :
  has_column df "age" = true ->
  exists i, position "age" (columns df) = Some i /\
            age_cells df = map (cell_at i) (rows df).
Proof.
  intros H. apply has_column_position in H. destruct H as [i Hi].
  exists i. unfold age_cells. now rewrite Hi.
Qed.

Lemma mapM_scalars (lo hi : Z) (vs : list value) :
  forallb (fun v => negb (is_str v)) vs = true ->
  mapM (ge_scalar lo) vs = Ok (map (num_leb (VInt lo)) vs) /\
  mapM (le_scalar hi) vs = Ok (map (fun v => num_leb v (VInt hi)) vs).
Proof.
  induction vs as [|v vs IH]; simpl; intros H; [split; reflexivity|].
  apply andb_true_iff in H. destruct H as [Hv Hs].
  destruct (IH Hs) as [-> ->].
  destruct v; simpl in *; try discriminate; split; reflexivity.
Qed.

Lemma select_empty_range (lo hi : Z) (i : nat) (rs : list row) :
  hi < lo ->
  select rs (mask_and
    (map (num_leb (VInt lo)) (map (cell_at i) rs))
    (map (fun v => num_leb v (VInt hi)) (map (cell_at i) rs))) = [].
Proof.
  intros H. induction rs as [|r rs IH]; [reflexivity|].
  cbn [map mask_and select].
  destruct (num_leb (VInt lo) (cell_at i r)) eqn:L,
           (num_leb (cell_at i r) (VInt hi)) eqn:U; cbn [andb]; try exact IH.
  pose proof (num_leb_trans _ _ _ L U) as C. simpl in C.
  apply Z.leb_le in C. lia.
Qed.

(** X3: the age step raises [UndefinedVariableError] when the table has
    no column [age], and [TypeError] when some age cell holds a text. *)
Theorem query_age_errors (df : DataFrame) (lo hi : Z) :
  (has_column df "age" = false ->
   query_age df lo hi = Raise (UndefinedVariableError "age")) /\
  (has_column df "age" = true -> no_text_age df = false ->
   query_age df lo hi = Raise TypeError).
Proof.
  split.
  - unfold has_column, query_age.
    destruct (position "age" (columns df)); [discriminate | reflexivity].
  - intros H T. destruct (age_position df H) as [i [Hi Ha]].
    unfold no_text_age in T. rewrite Ha in T.
    assert (E : existsb is_str (map (cell_at i) (rows df)) = true).
    { revert T. generalize (map (cell_at i) (rows df)).
      induction l as [|v vs IH]; simpl; [discriminate|].
      destruct (is_str v); simpl; [reflexivity | exact IH]. }
    unfold query_age. rewrite Hi. cbv zeta. now rewrite (mapM_ge_text lo _ E).
Qed.

(** X4: with a lower bound above the upper bound, the age step on a
    table with a numeric age column returns the columns without rows. *)
Theorem query_age_empty_range (df : DataFrame) (lo hi : Z) :
  has_column df "age" = true ->
  no_text_age df = true ->
  hi < lo ->
  query_age df lo hi = Ok (mkDF (columns df) []).
Proof.
  intros H T L. destruct (age_position df H) as [i [Hi Ha]].
  unfold no_text_age in T. rewrite Ha in T.
  unfold query_age. rewrite Hi.
  destruct (mapM_scalars lo hi _ T) as [-> ->]. simpl.
  unfold getitem_mask. now rewrite select_empty_range.
Qed.

(** ** The bounds of the slider *)

Lemma min_age_spec (bank : DataFrame) (lo : Z) :
  no_text_age bank = true -> min_age bank = Ok lo ->
  exists m,
    observed_min bank = Ok m /\ is_num m = true /\
    In m (age_cells bank) /\ py_int m = Ok lo /\
    forall v, In v (age_cells bank) -> is_num v = true -> num_leb m v = true.
Proof.
  unfold no_text_age, min_age, observed_min, age_cells, getattr.
  destruct (position "age" (columns bank)) as [i|]; [|discriminate].
  simpl. set (s := map (cell_at i) (rows bank)). intros T.
  destruct (series_min s) as [m|] eqn:E; simpl; [|discriminate].
  intros P. exists m. split; [reflexivity|].
  destruct (series_min_spec s m T E) as [->|[N [I L]]]; [discriminate|].
  repeat split; assumption.
Qed.

Lemma max_age_spec (bank : DataFrame) (hi : Z) :
  no_text_age bank = true -> max_age bank = Ok hi ->
  exists m,
    observed_max bank = Ok m /\ is_num m = true /\
    In m (age_cells bank) /\ py_int m = Ok hi /\
    forall v, In v (age_cells bank) -> is_num v = true -> num_leb v m = true.
Proof.
  unfold no_text_age, max_age, observed_max, age_cells, getattr.
  destruct (position "age" (columns bank)) as [i|]; [|discriminate].
  simpl. set (s := map (cell_at i) (rows bank)). intros T.
  destruct (series_max s) as [m|] eqn:E; simpl; [|discriminate].
  intros P. exists m. split; [reflexivity|].
  destruct (series_max_spec s m T E) as [->|[N [I L]]]; [discriminate|].
  repeat split; assumption.
Qed.

(** [int] cuts toward zero: what lies above the number lies above its
    cut up to less than 1, and likewise below. *)
Lemma py_int_below (m : value) (lo : Z) :
  is_num m = true -> py_int m = Ok lo ->
  (forall a, num_leb m (VInt a) = true -> lo <= a) /\
  (forall w f, num_leb m (VFloat w f) = true -> lo - 1 <= w).
Proof.
  destruct m as [x| | |W F]; try discriminate; intros _ H; simpl in H;
    inversion H; subst; split; simpl; intros; try destruct (0 <=? W) eqn:?;
    to_lia; lia.
Qed.

Lemma py_int_above (m : value) (hi : Z) :
  is_num m = true -> py_int m = Ok hi ->
  (forall a, num_leb (VInt a) m = true -> a <= hi) /\
  (forall w f, num_leb (VFloat w f) m = true -> w <= hi).
Proof.
  destruct m as [x| | |W F]; try discriminate; intros _ H; simpl in H;
    inversion H; subst; split; simpl; intros; try destruct (0 <=? W) eqn:?;
    to_lia; lia.
Qed.

Lemma py_int_monotone (m M : value) (lo hi : Z) :
  num_leb m M = true -> py_int m = Ok lo -> py_int M = Ok hi -> lo <= hi.
Proof.
  destruct m as [x| | |w f], M as [y| | |W F]; simpl; try discriminate;
    intros L H1 H2; inversion H1; inversion H2; subst;
    try destruct (0 <=? w) eqn:?; try destruct (0 <=? W) eqn:?; to_lia; lia.
Qed.

Lemma whole_ages_within (bank : DataFrame) (lo hi : Z) :
  no_text_age bank = true ->
  min_age bank = Ok lo ->
  max_age bank = Ok hi ->
  forall a, In (VInt a) (age_cells bank) -> lo <= a <= hi.
Proof.
  intros T Hlo Hhi a Ha.
  destruct (min_age_spec bank lo T Hlo) as [m [_ [Nm [Im [Pm Lm]]]]].
  destruct (max_age_spec bank hi T Hhi) as [M [_ [NM [IM [PM LM]]]]].
  destruct (py_int_below m lo Nm Pm) as [B1 _].
  destruct (py_int_above M hi NM PM) as [A1 _].
  split; [apply B1, Lm | apply A1, LM]; auto.
Qed.

(** X5: on a table without text in the age column, the bounds computed
    for the slider are the smallest and the largest age of the table cut
    to whole numbers toward zero.  The lower bound is at most the upper;
    every whole age lies between them, and every age that is not whole
    lies between [lo - 1] and [hi + 1]. *)
Theorem slider_bounds (bank : DataFrame) (lo hi : Z) :
  no_text_age bank = true ->
  min_age bank = Ok lo ->
  max_age bank = Ok hi ->
  lo <= hi /\
  (exists m M,
     In m (age_cells bank) /\ In M (age_cells bank) /\
     py_int m = Ok lo /\ py_int M = Ok hi /\
     forall v, In v (age_cells bank) -> is_num v = true ->
               num_leb m v = true /\ num_leb v M = true) /\
  (forall a, In (VInt a) (age_cells bank) -> lo <= a <= hi) /\
  (forall w f, In (VFloat w f) (age_cells bank) -> lo - 1 <= w <= hi).
Proof.
  intros T Hlo Hhi.
  destruct (min_age_spec bank lo T Hlo) as [m [_ [Nm [Im [Pm Lm]]]]].
  destruct (max_age_spec bank hi T Hhi) as [M [_ [NM [IM [PM LM]]]]].
  destruct (py_int_below m lo Nm Pm) as [B1 B2].
  destruct (py_int_above M hi NM PM) as [A1 A2].
  split; [exact (py_int_monotone m M lo hi (Lm M IM NM) Pm PM)|].
  split; [exists m, M; repeat split; auto|].
  split.
  - intros a Ha. split; [apply B1 | apply A1]; [apply Lm | apply LM]; auto.
  - intros w f Ha. split; [apply (B2 w f) | apply (A2 w f)];
      [apply Lm | apply LM]; auto.
Qed.

(** When every age cell is empty (in particular when the table has
    no rows), computing the upper bound of the slider raises
    [ValueError]. *)
Lemma max_age_of_no_age (bank : DataFrame) :
  has_column bank "age" = true ->
  forallb isna (age_cells bank) = true ->
  max_age bank = Raise ValueError.
Proof.
  intros H N. destruct (age_position bank H) as [i [Hi Ha]].
  unfold max_age, getattr. rewrite Hi. simpl. rewrite <- Ha.
  unfold series_max.
  assert (T : forallb (fun v => negb (is_str v)) (age_cells bank) = true).
  { rewrite forallb_forall in *. intros v Hv. specialize (N v Hv).
    now destruct v. }
  rewrite (no_text_among_others _ T).
  replace (dropna (age_cells bank)) with (@nil value); [reflexivity|].
  symmetry. unfold dropna. revert N. clear. generalize (age_cells bank).
  induction l as [|v vs IH]; simpl; intros N; [reflexivity|].
  apply andb_true_iff in N. destruct N as [Nv Ns]. rewrite Nv. simpl. auto.
Qed.

(** ** The chain as a whole *)

Lemma blocked_columns (b bank : DataFrame) (cs : string * list value) :
  columns b = columns bank -> blocked b cs = blocked bank cs.
Proof.
  intros C. unfold blocked. now rewrite (has_column_columns bank b (fst cs) C).
Qed.

Lemma apply_steps_blocked (bank : DataFrame) l : forall b cs,
  columns b = columns bank ->
  find (blocked bank) l = Some cs ->
  apply_steps b l = Raise (KeyError (fst cs)).
Proof.
  induction l as [|[c sel] l IH]; simpl; intros b cs C F; [discriminate|].
  rewrite <- (blocked_columns b bank (c, sel) C) in F.
  destruct (blocked b (c, sel)) eqn:B.
  - injection F as <-. unfold blocked in B. simpl in *.
    apply andb_true_iff in B. destruct B as [B1 B2].
    apply negb_true_iff in B1, B2.
    now rewrite (multiselect_filter_missing_column b c sel B1 B2).
  - assert (T : exists b', multiselect_filter b c sel = Ok b').
    { unfold blocked in B. simpl in B. apply andb_false_iff in B.
      destruct B as [B|B]; apply negb_false_iff in B.
      - rewrite (multiselect_filter_all b c sel B). now eexists.
      - now apply multiselect_filter_total. }
    destruct T as [b' E]. rewrite E. simpl.
    apply IH; [|assumption].
    destruct (multiselect_filter_rows _ _ _ _ E) as [C' _]. congruence.
Qed.

(** X6: on a table with a numeric age column, the chain raises
    [KeyError] for the first categorical column that is absent while
    'all' is not selected for it; absent columns with 'all' selected are
    passed over. *)
Theorem filter_chain_missing_column (bank : DataFrame) (s : selection)
    (cs : string * list value) :
  has_column bank "age" = true ->
  no_text_age bank = true ->
  first_blocked bank s = Some cs ->
  filter_chain bank s = Raise (KeyError (fst cs)).
Proof.
  intros K T F. destruct (age_position bank K) as [i [Hi Ha]].
  rewrite filter_chain_steps.
  assert (Q : exists b, query_age bank (fst (idades s)) (snd (idades s)) = Ok b).
  { unfold query_age. rewrite Hi. unfold no_text_age in T. rewrite Ha in T.
    destruct (mapM_scalars (fst (idades s)) (snd (idades s)) _ T) as [-> ->].
    simpl. now eexists. }
  destruct Q as [b Q]. rewrite Q.
  change (apply_steps b (selections s) = Raise (KeyError (fst cs))).
  apply (apply_steps_blocked bank); [|exact F].
  now destruct (query_age_rows _ _ _ _ Q).
Qed.

Lemma query_age_subseq df lo hi out :
  query_age df lo hi = Ok out -> Subseq (rows out) (rows df).
Proof.
  unfold query_age.
  destruct (position "age" (columns df)) as [i|]; [|discriminate].
  destruct (mapM (ge_scalar lo) _); simpl; [|discriminate].
  destruct (mapM (le_scalar hi) _); simpl; [|discriminate].
  intros H; inversion H; subst; simpl. apply Subseq_select.
Qed.

Lemma apply_steps_keeps_canonical l : forall b out,
  relabel 0 (rows b) = rows b ->
  apply_steps b l = Ok out ->
  relabel 0 (rows out) = rows out.
Proof.
  induction l as [|[c sel] l IH]; simpl; intros b out C H.
  - now inversion H; subst.
  - destruct (multiselect_filter b c sel) as [b'|] eqn:E; simpl in H; [|discriminate].
    apply (IH b'); [|assumption].
    destruct (py_in (VStr "all") sel) eqn:A.
    + rewrite (multiselect_filter_all b c sel A) in E. now inversion E; subst.
    + exact (multiselect_filter_canonical _ _ _ _ A E).
Qed.

Lemma apply_steps_canonical l : forall b out,
  forallb (fun cs => py_in (VStr "all") (snd cs)) l = false ->
  apply_steps b l = Ok out ->
  relabel 0 (rows out) = rows out.
Proof.
  induction l as [|[c sel] l IH]; simpl; intros b out N H; [discriminate|].
  destruct (multiselect_filter b c sel) as [b'|] eqn:E; simpl in H; [|discriminate].
  destruct (py_in (VStr "all") sel) eqn:A; simpl in N.
  - now apply (IH b').
  - apply (apply_steps_keeps_canonical l b'); [|assumption].
    exact (multiselect_filter_canonical _ _ _ _ A E).
Qed.

Lemma canonical_labels (rs : list row) :
  relabel 0 rs = rs -> map label rs = range_index (List.length rs).
Proof.
  intros C. rewrite <- C at 1. apply (labels_relabel rs 0).
Qed.

(** X7: the index of the filtered table.  When every categorical
    selection holds 'all', the rows keep the index labels they had in
    the loaded table; otherwise the filtered table carries a fresh index
    0, 1, ..., n-1. *)
Theorem filter_chain_index (bank : DataFrame) (s : selection) (out : DataFrame) :
  filter_chain bank s = Ok out ->
  (all_selected s = true -> Subseq (rows out) (rows bank)) /\
  (all_selected s = false -> labels out = range_index (List.length (rows out))).
Proof.
  rewrite filter_chain_steps.
  destruct (query_age _ _ _) as [b|] eqn:Q; [|discriminate].
  intros H. change (apply_steps b (selections s) = Ok out) in H.
  unfold all_selected. split; intros A.
  - rewrite (apply_steps_all _ b A) in H. inversion H; subst.
    exact (query_age_subseq _ _ _ _ Q).
  - apply canonical_labels. exact (apply_steps_canonical _ _ _ A H).
Qed.

Lemma apply_steps_needs_columns l : forall b out,
  apply_steps b l = Ok out ->
  forall cs, In cs l -> py_in (VStr "all") (snd cs) = false ->
  has_column out (fst cs) = true.
Proof.
  induction l as [|[c sel] l IH]; simpl; intros b out H cs Hin A; [tauto|].
  destruct (multiselect_filter b c sel) as [b'|] eqn:E; simpl in H; [|discriminate].
  destruct Hin as [<-|Hin]; [|now apply (IH b')].
  simpl in *. pose proof (multiselect_filter_column _ _ _ _ A E) as K.
  destruct (multiselect_filter_rows _ _ _ _ E) as [C1 _].
  destruct (apply_steps_rows _ _ _ H) as [C2 _].
  rewrite (has_column_columns b out c); [assumption | congruence].
Qed.

Lemma apply_steps_fixed l : forall out,
  (forall r, In r (rows out) ->
     forallb (category_ok (columns out) (cells r)) l = true) ->
  (forallb (fun cs => py_in (VStr "all") (snd cs)) l = true \/
   relabel 0 (rows out) = rows out) ->
  (forall cs, In cs l -> py_in (VStr "all") (snd cs) = false ->
     has_column out (fst cs) = true) ->
  apply_steps out l = Ok out.
Proof.
  induction l as [|[c sel] l IH]; simpl; intros out S C K; [reflexivity|].
  assert (E : multiselect_filter out c sel = Ok out).
  { destruct (py_in (VStr "all") sel) eqn:A;
      [now apply multiselect_filter_all|].
    destruct C as [C|C]; [discriminate|].
    specialize (K (c, sel) (or_introl eq_refl) A). simpl in K.
    apply has_column_position in K. destruct K as [i Hi].
    unfold multiselect_filter, getitem. rewrite A, Hi. simpl.
    unfold reset_index, getitem_mask. simpl.
    rewrite select_all.
    - rewrite C. now destruct out.
    - intros r Hr. specialize (S r Hr). apply andb_true_iff in S.
      destruct S as [S _]. unfold category_ok, lookup in S. simpl in S.
      rewrite A, Hi in S. simpl in S. exact S. }
  rewrite E. simpl. apply IH.
  - intros r Hr. specialize (S r Hr). apply andb_true_iff in S. tauto.
  - destruct C as [C|C]; [|now right]. apply andb_true_iff in C. tauto.
  - intros cs Hin. apply K. now right.
Qed.

(** X8: the chain is idempotent: run again, with the same selection,
    on the table it returned, it returns that table. *)
Theorem filter_chain_idempotent (bank : DataFrame) (s : selection)
    (out : DataFrame) :
  filter_chain bank s = Ok out ->
  filter_chain out s = Ok out.
Proof.
  intros H. destruct (filter_chain_rows _ _ _ H) as [Hc Hr].
  assert (Sat : forall r, In r (rows out) ->
                          satisfies (columns out) s (cells r) = true).
  { intros r Hin. rewrite Hc.
    assert (I : In (cells r) (row_values out)) by (now apply in_map).
    rewrite Hr in I. now apply filter_In in I. }
  revert H. rewrite !filter_chain_steps.
  destruct (query_age bank _ _) as [b|] eqn:Q; [|discriminate].
  intros H. change (apply_steps b (selections s) = Ok out) in H.
  assert (P : exists i, position "age" (columns out) = Some i).
  { rewrite Hc. unfold query_age in Q.
    destruct (position "age" (columns bank)); [now eexists | discriminate]. }
  destruct P as [i Hi].
  assert (Q' : query_age out (fst (idades s)) (snd (idades s)) = Ok out).
  { unfold query_age. rewrite Hi.
    destruct (select_in_range i (fst (idades s)) (snd (idades s)) (rows out))
      as [ge [le [Hge [Hle Hs]]]].
    - intros r Hin. specialize (Sat r Hin). apply andb_true_iff in Sat.
      destruct Sat as [A _]. unfold age_ok, lookup in A. rewrite Hi in A.
      simpl in A. unfold cell_at.
      destruct (nth i (cells r) NaN) as [a| | |w f]; try discriminate;
        apply andb_true_iff in A; destruct A as [A1 A2]; simpl;
        now rewrite A1, A2.
    - rewrite Hge, Hle. simpl. unfold getitem_mask. rewrite Hs. now destruct out. }
  rewrite Q'. change (apply_steps out (selections s) = Ok out).
  apply apply_steps_fixed.
  - intros r Hin. specialize (Sat r Hin). apply andb_true_iff in Sat. tauto.
  - destruct (forallb (fun cs => py_in (VStr "all") (snd cs)) (selections s)) eqn:A;
      [now left | right].
    exact (apply_steps_canonical _ _ _ A H).
  - exact (apply_steps_needs_columns _ _ _ H).
Qed.

(** X9: with every categorical selection holding 'all' and the age
    range set to the bounds of the slider, the chain keeps only rows
    that have a number in their age cell and keeps every row whose age
    is a whole number; a row whose age is not whole, between [w] and
    [w + 1], is kept exactly when [lo <= w < hi], so it can be lost to
    the cut of the bounds. *)
Theorem default_selection_rows (bank : DataFrame) (s : selection) (lo hi : Z) :
  all_selected s = true ->
  no_text_age bank = true ->
  min_age bank = Ok lo ->
  max_age bank = Ok hi ->
  idades s = (lo, hi) ->
  exists out,
    filter_chain bank s = Ok out /\
    Subseq (rows out) (rows bank) /\
    (forall r, In r (row_values out) ->
       In r (row_values bank) /\ aged (columns bank) r = true) /\
    (forall r a, In r (row_values bank) ->
       lookup (columns bank) r "age" = Some (VInt a) ->
       In r (row_values out)) /\
    (forall r w f, In r (row_values bank) ->
       lookup (columns bank) r "age" = Some (VFloat w f) ->
       (In r (row_values out) <-> lo <= w < hi)).
Proof.
  intros A T Hlo Hhi Hs.
  pose proof (whole_ages_within bank lo hi T Hlo Hhi) as W.
  assert (K : has_column bank "age" = true).
  { unfold min_age, getattr in Hlo. unfold has_column.
    destruct (position "age" (columns bank)); [reflexivity | discriminate]. }
  destruct (age_position bank K) as [i [Hi Ha]].
  assert (Q : exists b, query_age bank lo hi = Ok b).
  { unfold query_age. rewrite Hi. unfold no_text_age in T. rewrite Ha in T.
    destruct (mapM_scalars lo hi _ T) as [-> ->]. simpl. now eexists. }
  destruct Q as [b Q].
  assert (H : filter_chain bank s = Ok b).
  { rewrite filter_chain_steps, Hs. simpl fst; simpl snd. rewrite Q.
    change (apply_steps b (selections s) = Ok b). now apply apply_steps_all. }
  exists b. split; [assumption|]. split; [exact (query_age_subseq _ _ _ _ Q)|].
  destruct (filter_chain_rows _ _ _ H) as [_ Hr].
  assert (S : forall r, satisfies (columns bank) s r
                        = age_ok (columns bank) lo hi r).
  { intros r. unfold satisfies. rewrite Hs. cbn [fst snd].
    replace (forallb (category_ok (columns bank) r) (selections s)) with true;
      [apply andb_true_r|].
    symmetry. unfold all_selected in A. rewrite forallb_forall in *.
    intros cs Hcs. unfold category_ok. now rewrite (A cs Hcs). }
  assert (I : forall r, In r (row_values b) <->
                        In r (row_values bank) /\
                        age_ok (columns bank) lo hi r = true).
  { intros r. rewrite Hr, filter_In, S. reflexivity. }
  split; [|split].
  - intros r Hin. apply I in Hin. destruct Hin as [Hin O].
    split; [assumption|]. unfold age_ok, aged in *.
    destruct (lookup (columns bank) r "age") as [[| | |]|];
      try discriminate; reflexivity.
  - intros r a Hin L. apply I. split; [assumption|].
    unfold age_ok. rewrite L.
    assert (In (VInt a) (age_cells bank)).
    { rewrite Ha. unfold lookup in L. rewrite Hi in L. simpl in L.
      injection L as L. unfold row_values in Hin. apply in_map_iff in Hin.
      destruct Hin as [r0 [<- Hin]]. apply in_map_iff. exists r0.
      split; [exact L | assumption]. }
    specialize (W a H0). to_lia. lia.
  - intros r w f Hin L. rewrite I. unfold age_ok. rewrite L. to_lia.
    tauto.
Qed.

(** ** The entries of a distribution *)

Lemma unique_in (k : value) (l : list value) : In k l -> In k (unique l).
Proof.
  induction l as [|a l IH]; simpl; [tauto|].
  intros [E|H]; [now left|].
  destruct (value_eqb k a) eqn:Q.
  - apply value_eqb_eq in Q. now left.
  - right. apply filter_In. split; [now apply IH|].
    unfold differs. now rewrite Q.
Qed.

Lemma NoDup_filter {A : Type} (f : A -> bool) (l : list A) :
  NoDup l -> NoDup (filter f l).
Proof.
  induction 1 as [|a l Hn Hd IH]; simpl; [constructor|].
  destruct (f a); [|assumption]. constructor; [|assumption].
  intros H. apply filter_In in H. tauto.
Qed.

Lemma NoDup_unique (l : list value) : NoDup (unique l).
Proof.
  induction l as [|a l IH]; simpl; constructor.
  - intros H. apply filter_In in H. destruct H as [_ H].
    unfold differs in H. now rewrite value_eqb_refl in H.
  - now apply NoDup_filter.
Qed.

Lemma count_bounds (k : value) (l : list value) :
  In k l -> 1 <= count k l <= Z.of_nat (List.length l).
Proof.
  intros H. split.
  - unfold count.
    assert (I : In k (filter (value_eqb k) l))
      by (apply filter_In; split; [assumption | apply value_eqb_refl]).
    destruct (filter (value_eqb k) l); [contradiction | simpl; lia].
  - unfold count. pose proof (filter_length_le (value_eqb k) l). lia.
Qed.

Lemma share_bounds (ys : list value) (k : value) :
  In k (dropna ys) -> (0 < share ys k /\ share ys k <= 100)%Q.
Proof.
  intros H. destruct (count_bounds k _ H) as [Lo Hi]. unfold share.
  set (c := count k (dropna ys)) in *.
  set (n := Z.of_nat (List.length (dropna ys))) in *.
  assert (Hn : (0 < inject_Z n)%Q) by (unfold Qlt; simpl; lia).
  assert (Hc : (0 < inject_Z c)%Q) by (unfold Qlt; simpl; lia).
  split.
  - apply Qmult_lt_0_compat; [|reflexivity].
    apply Qlt_shift_div_l; [assumption|]. now rewrite Qmult_0_l.
  - setoid_replace 100%Q with (1 * 100)%Q at 2 by ring.
    apply Qmult_le_compat_r; [|discriminate].
    apply Qle_shift_div_r; [assumption|]. rewrite Qmult_1_l.
    rewrite <- Zle_Qle. exact Hi.
Qed.

Lemma target_perc_perm (df : DataFrame) (d : Distribution) :
  target_perc df = Ok d ->
  Permutation d (map (fun k => (k, share (outcome_cells df) k))
                     (unique (dropna (outcome_cells df)))).
Proof.
  unfold target_perc, getattr, outcome_cells.
  destruct (position "y" (columns df)) as [i|]; [|discriminate]. simpl.
  unfold sort_index. destruct (mixed _); [discriminate|].
  intros H; inversion H; subst. rewrite sort_by_perm. apply percentages_perm.
Qed.

(** X10: in a distribution that was computed, every outcome that occurs
    in the column [y] has exactly one entry, missing outcomes have none,
    and every percentage is the share of its outcome, above 0 and at
    most 100. *)
Theorem distribution_entries (df : DataFrame) (d : Distribution) :
  target_perc df = Ok d ->
  NoDup (map fst d) /\
  (forall k, In k (map fst d) <-> In k (outcome_cells df) /\ k <> NaN) /\
  (forall k p, In (k, p) d ->
     p = share (outcome_cells df) k /\ (0 < p /\ p <= 100)%Q).
Proof.
  intros H. pose proof (target_perc_perm df d H) as P.
  set (ys := outcome_cells df) in *.
  assert (K : Permutation (map fst d) (unique (dropna ys))).
  { rewrite (Permutation_map fst P), map_map. simpl. now rewrite map_id. }
  assert (M : forall k, In k (unique (dropna ys)) <-> In k ys /\ k <> NaN).
  { intros k. split.
    - intros I. apply in_unique in I. unfold dropna in I.
      apply filter_In in I. destruct I as [I N]. split; [assumption|].
      intros ->. discriminate.
    - intros [I N]. apply unique_in. unfold dropna. apply filter_In.
      split; [assumption|]. now destruct k. }
  split; [|split].
  - apply (Permutation_NoDup (Permutation_sym K)), NoDup_unique.
  - intros k. rewrite <- M. split; apply Permutation_in;
      [assumption | now apply Permutation_sym].
  - intros k p I. apply (Permutation_in _ P) in I. apply in_map_iff in I.
    destruct I as [k' [E I]]. inversion E; subst. split; [reflexivity|].
    apply share_bounds. now apply in_unique.
Qed.

(** ** Outcomes that cannot be ordered *)

Lemma mixed_keys (ys : list value) :
  mixed ys = true ->
  mixed (map fst (times100 (value_counts_normalize ys))) = true.
Proof.
  unfold mixed. intros H. apply andb_true_iff in H. destruct H as [I S].
  assert (T : forall k, In k ys -> k <> NaN ->
                        In k (map fst (times100 (value_counts_normalize ys)))).
  { intros k Hk N.
    apply (Permutation_in _ (Permutation_sym
             (Permutation_map fst (percentages_perm ys)))).
    rewrite map_map. simpl. rewrite map_id. apply unique_in.
    unfold dropna. apply filter_In. split; [assumption | now destruct k]. }
  apply existsb_exists in I. destruct I as [a [Ha Ia]].
  apply existsb_exists in S. destruct S as [b [Hb Sb]].
  apply andb_true_iff. split; apply existsb_exists.
  - exists a. split; [apply T; [assumption | now destruct a] | assumption].
  - exists b. split; [apply T; [assumption | now destruct b] | assumption].
Qed.

Lemma target_perc_cases (df : DataFrame) :
  has_column df "y" = true ->
  (mixed (outcome_cells df) = true /\ target_perc df = Raise TypeError) \/
  (mixed (outcome_cells df) = false /\ exists d, target_perc df = Ok d).
Proof.
  intros H. apply has_column_position in H. destruct H as [i Hi].
  unfold target_perc, getattr, outcome_cells. rewrite Hi. simpl.
  set (ys := map (cell_at i) (rows df)). unfold sort_index.
  destruct (mixed ys) eqn:M.
  - left. split; [reflexivity|]. now rewrite (mixed_keys ys M).
  - right. split; [reflexivity|].
    rewrite (mixed_incl _ ys (percentages_keys ys) M). now eexists.
Qed.

(** X11: when the column [y] holds a number in one row and a text in
    another, computing the distribution raises [TypeError]; neither the
    raw nor the filtered block catches it, so the run stops there. *)
Theorem mixed_outcomes_raise (df : DataFrame) :
  has_column df "y" = true ->
  mixed (outcome_cells df) = true ->
  target_perc df = Raise TypeError /\
  raw_block df = ([], Raise TypeError) /\
  filtered_block df = ([], Raise TypeError).
Proof.
  intros H M. destruct (target_perc_cases df H) as [[_ E]|[N _]];
    [|congruence].
  unfold raw_block, filtered_block. rewrite H, E. repeat split.
Qed.

(** X12: the filtered block has three outcomes only: the percentage
    table is shown, or the run stops with [TypeError], or the line about
    the missing column is shown.  The handler of [KeyError] never runs. *)
Theorem filtered_block_outcomes (bank : DataFrame) :
  (exists d, target_perc bank = Ok d /\
             filtered_block bank
             = ([Write 0 (Text "### Bank Target Perc:");
                 Write 0 (Percentages d)], Ok (Some d))) \/
  filtered_block bank = ([], Raise TypeError) \/
  filtered_block bank
  = ([Error "'y' column is missing in the filtered data!"], Ok None).
Proof.
  unfold filtered_block. destruct (has_column bank "y") eqn:H.
  - destruct (target_perc_cases bank H) as [[_ E]|[_ [d E]]]; rewrite E.
    + right. left. reflexivity.
    + left. exists d. split; reflexivity.
  - right. right. reflexivity.
Qed.

(** ** Narrower and wider selections *)

Lemma Subseq_filter_imp {A : Type} (f g : A -> bool) (l : list A) :
  (forall x, In x l -> f x = true -> g x = true) ->
  Subseq (filter f l) (filter g l).
Proof.
  induction l as [|a l IH]; simpl; intros H; [constructor|].
  assert (IH' : Subseq (filter f l) (filter g l))
    by (apply IH; intros; apply H; auto).
  destruct (f a) eqn:F.
  - rewrite (H a (or_introl eq_refl) F). now constructor.
  - destruct (g a); [now constructor | assumption].
Qed.

Lemma py_in_incl (v : value) (l1 l2 : list value) :
  forallb (fun x => py_in x l2) l1 = true ->
  py_in v l1 = true -> py_in v l2 = true.
Proof.
  intros H I. apply py_in_In in I. rewrite forallb_forall in H. now apply H.
Qed.

Lemma category_ok_incl cols r : forall l1 l2,
  map fst l1 = map fst l2 ->
  forallb (fun p => covered (snd (fst p)) (snd (snd p))) (combine l1 l2) = true ->
  forallb (category_ok cols r) l1 = true ->
  forallb (category_ok cols r) l2 = true.
Proof.
  induction l1 as [|[c1 s1] l1 IH]; intros [|[c2 s2] l2] E W H; simpl in *;
    try discriminate; [reflexivity|].
  injection E as E1 E2. subst c2.
  apply andb_true_iff in W. destruct W as [W1 W2].
  apply andb_true_iff in H. destruct H as [H1 H2].
  apply andb_true_iff. split; [|now apply IH].
  unfold category_ok, covered in *. simpl in *.
  destruct (py_in (VStr "all") s2) eqn:A2; [reflexivity|]. simpl in *.
  apply orb_true_iff in H1. destruct H1 as [H1|H1].
  - pose proof (py_in_incl _ _ _ W1 H1). congruence.
  - destruct (lookup cols r c1); [|discriminate].
    exact (py_in_incl _ _ _ W1 H1).
Qed.

(** X13: narrowing the selection can only remove rows: when [s1] is
    within [s2], the rows the chain keeps under [s1] are among the rows
    it keeps under [s2], in the same order. *)
Theorem filter_chain_monotone (bank : DataFrame) (s1 s2 : selection)
    (out1 out2 : DataFrame) :
  within s1 s2 = true ->
  filter_chain bank s1 = Ok out1 ->
  filter_chain bank s2 = Ok out2 ->
  Subseq (row_values out1) (row_values out2).
Proof.
  intros W H1 H2.
  destruct (filter_chain_rows _ _ _ H1) as [_ ->].
  destruct (filter_chain_rows _ _ _ H2) as [_ ->].
  apply Subseq_filter_imp. intros r _ S.
  unfold within in W. apply andb_true_iff in W. destruct W as [W W3].
  apply andb_true_iff in W. destruct W as [W1 W2].
  apply Z.leb_le in W1, W2.
  unfold satisfies in *. apply andb_true_iff in S. destruct S as [A C].
  apply andb_true_iff. split.
  - unfold age_ok in *.
    destruct (lookup (columns bank) r "age") as [[a| | |w f]|];
      try discriminate; to_lia; lia.
  - apply (category_ok_incl _ _ (selections s1)); [reflexivity | assumption..].
Qed.

(** ** Export *)

(** X14: the workbook does not record the index: two tables with the
    same columns and the same cells export alike whatever their index
    labels, and two percentage tables with the same percentages export
    alike whatever outcomes label them. *)
Theorem export_ignores_index :
  (forall a b, columns a = columns b -> row_values a = row_values b ->
     to_excel (Table a) = to_excel (Table b)) /\
  (forall d d' : Distribution, map snd d = map snd d' ->
     to_excel (Perc d) = to_excel (Perc d')).
Proof.
  split.
  - intros a b C R. unfold to_excel. rewrite C. f_equal.
    unfold row_values in R. unfold cell_at.
    rewrite <- (map_map cells
      (fun c => map (fun i => XValue (nth i c NaN))
                    (seq 0 (List.length (columns b))))).
    rewrite <- (map_map cells
      (fun c => map (fun i => XValue (nth i c NaN))
                    (seq 0 (List.length (columns b)))) (rows b)).
    now rewrite R.
  - intros d d' H. unfold to_excel. f_equal.
    rewrite <- (map_map snd (fun q => [XNumber q])).
    rewrite <- (map_map snd (fun q => [XNumber q]) d'). now rewrite H.
Qed.

(** ** The options of a multiselect *)

(** X15: the options offered for a column are its distinct values, each
    once, followed by 'all'; so the default ['all'] is always among the
    options. *)
Theorem options_spec (bank : DataFrame) (col : string) (cells_of_col : list value) :
  getitem bank col = Ok cells_of_col ->
  exists u,
    options bank col = Ok (u ++ [VStr "all"])%list /\
    NoDup u /\
    forall v, In v u <-> In v cells_of_col.
Proof.
  unfold getitem, options, getattr.
  destruct (position col (columns bank)) as [i|]; [|discriminate].
  intros H; inversion H; subst. simpl.
  exists (unique (map (cell_at i) (rows bank))).
  split; [reflexivity|]. split; [apply NoDup_unique|].
  intros v. split; [apply in_unique | apply unique_in].
Qed.

(** ** Runs of the script *)

Lemma options_missing (bank : DataFrame) (c : string) :
  has_column bank c = false -> options bank c = Raise (AttributeError c).
Proof.
  unfold has_column, options, getattr.
  destruct (position c (columns bank)); [discriminate | reflexivity].
Qed.

Lemma form_block_missing (bank : DataFrame) (s : selection) (lo hi : Z) (c : string) :
  min_age bank = Ok lo -> max_age bank = Ok hi ->
  first_missing bank = Some c ->
  form_block bank s = ([], Raise (AttributeError c)).
Proof.
  intros Hlo Hhi. unfold first_missing, form_block, form_columns.
  rewrite Hlo, Hhi. cbn [tl find].
  repeat match goal with
  | |- context [negb (has_column bank ?k)] =>
      let E := fresh "E" in
      destruct (has_column bank k) eqn:E; cbn [negb];
      [ let l := fresh "l" in let O := fresh "O" in
        destruct (options_total bank k E) as [l O]; rewrite O
      | intros F; injection F as <-;
        rewrite (options_missing bank k E); reflexivity ]
  end.
  discriminate.
Qed.

Lemma outcome_cells_incl (bank_raw bank : DataFrame) (s : selection) :
  filter_chain bank_raw s = Ok bank ->
  forall k, In k (outcome_cells bank) -> In k (outcome_cells bank_raw).
Proof.
  intros H k. destruct (filter_chain_rows _ _ _ H) as [Hc Hr].
  unfold outcome_cells. rewrite Hc.
  destruct (position "y" (columns bank_raw)) as [i|]; [|tauto].
  unfold cell_at. rewrite <- !(map_map cells (fun c => nth i c NaN)).
  fold (row_values bank). fold (row_values bank_raw). rewrite Hr.
  rewrite !in_map_iff. intros [c [E I]]. exists c. split; [assumption|].
  now apply filter_In in I.
Qed.

Lemma target_perc_nonempty (df : DataFrame) (d : Distribution) :
  some_outcome df = true -> target_perc df = Ok d ->
  exists e d', d = e :: d'.
Proof.
  intros S H. pose proof (target_perc_perm df d H) as P.
  pose proof (some_outcome_length df S) as N.
  destruct d as [|e d']; [|now eexists; eexists].
  apply Permutation_nil in P. exfalso. apply N.
  destruct (dropna (outcome_cells df)) as [|v l]; [reflexivity|].
  simpl in P. discriminate.
Qed.

Section Runs.

Variable upload : Type.
Variable read_csv : upload -> string -> result DataFrame.
Variable read_excel : upload -> result DataFrame.

(** X16: when the loaded table has the column [y] with outcomes that
    can be ordered, and some row of the filtered table has an outcome,
    the run ends normally and the page holds, in this order, the two
    previews with the download of the filtered table, the raw and the
    filtered percentage tables, their two downloads, and the chart pair
    of the chosen kind. *)
Theorem page_with_outcome (file : upload) (bank_raw bank : DataFrame)
    (graph_type : graph) (s : selection) (lo hi : Z) :
  load_data read_csv read_excel file = Ok bank_raw ->
  filterable bank_raw = true ->
  min_age bank_raw = Ok lo ->
  max_age bank_raw = Ok hi ->
  has_column bank_raw "y" = true ->
  mixed (outcome_cells bank_raw) = false ->
  filter_chain bank_raw s = Ok bank ->
  some_outcome bank = true ->
  exists raw_perc perc,
    target_perc bank_raw = Ok raw_perc /\
    target_perc bank = Ok perc /\
    main read_csv read_excel (Some file) graph_type s
    = ([ Write 0 (Text "# Telemarketing Analysis");
         Markdown "---";
         Write 0 (Text "## Before filtering");
         Write 0 (Frame (head bank_raw));
         Write 0 (Text "### Columns in the dataset:");
         Write 0 (Names (columns bank_raw));
         Write 0 (Text "## After filtering");
         Write 0 (Frame (head bank));
         DownloadButton 0 (to_excel (Table bank)) "bank_filtered.xlsx";
         Markdown "---";
         Write 0 (Text "### Columns after filtering:");
         Write 0 (Names (columns bank));
         Write 0 (Text "### Bank Raw Target Perc:");
         Write 0 (Percentages raw_perc);
         Write 0 (Text "### Bank Target Perc:");
         Write 0 (Percentages perc);
         Write 1 (Text "### Original proportion");
         Write 1 (Percentages raw_perc);
         DownloadButton 1 (to_excel (Perc raw_perc)) "bank_raw_y.xlsx";
         Write 2 (Text "### Proportion of filtered table");
         Write 2 (Percentages perc);
         DownloadButton 2 (to_excel (Perc perc)) "bank_y.xlsx";
         Markdown "---";
         Write 0 (Text "## Acceptance proportion");
         Pyplot (match graph_type with
                 | Bar => BarPair raw_perc perc
                 | Pie => PiePair raw_perc perc
                 end) ],
       Ok tt).
Proof.
  intros Hload Hf Hlo Hhi Hy Hm Hb So.
  assert (Hy' : has_column bank "y" = true).
  { destruct (filter_chain_rows _ _ _ Hb) as [Hc _].
    now rewrite (has_column_columns bank_raw bank "y" Hc). }
  assert (Hm' : mixed (outcome_cells bank) = false).
  { apply (mixed_incl _ (outcome_cells bank_raw)); [|assumption].
    exact (outcome_cells_incl _ _ _ Hb). }
  assert (So' : some_outcome bank_raw = true).
  { unfold some_outcome in *. apply existsb_exists in So.
    destruct So as [v [Hv Nv]]. apply existsb_exists. exists v.
    split; [exact (outcome_cells_incl _ _ _ Hb v Hv) | assumption]. }
  destruct (target_perc_cases bank_raw Hy) as [[M _]|[_ [raw_perc Er]]];
    [congruence|].
  destruct (target_perc_cases bank Hy') as [[M _]|[_ [perc Ep]]];
    [congruence|].
  destruct (target_perc_nonempty _ _ So' Er) as [e1 [d1 E1]].
  destruct (target_perc_nonempty _ _ So Ep) as [e2 [d2 E2]].
  exists raw_perc, perc. repeat (split; [assumption|]).
  unfold main. rewrite Hload. cbn [app_bind emit lift ret app].
  rewrite (form_block_ok bank_raw bank s lo hi Hf Hlo Hhi Hb).
  cbn [app_bind emit lift ret app].
  unfold raw_block, filtered_block, download_block, chart_block.
  rewrite Hy, Hy', Er, Ep. subst raw_perc perc.
  destruct graph_type; reflexivity.
Qed.

(** X17: when the loaded table lacks one of the eight categorical
    columns, the run stops with [AttributeError] for the first that is
    missing, after the preview of the raw table and before anything
    about the filtered table, whatever the selection: also when 'all'
    is selected for that column. *)
Theorem missing_form_column_stops (file : upload) (bank_raw : DataFrame)
    (graph_type : graph) (s : selection) (lo hi : Z) (c : string) :
  load_data read_csv read_excel file = Ok bank_raw ->
  min_age bank_raw = Ok lo ->
  max_age bank_raw = Ok hi ->
  first_missing bank_raw = Some c ->
  main read_csv read_excel (Some file) graph_type s
  = ([ Write 0 (Text "# Telemarketing Analysis");
       Markdown "---";
       Write 0 (Text "## Before filtering");
       Write 0 (Frame (head bank_raw));
       Write 0 (Text "### Columns in the dataset:");
       Write 0 (Names (columns bank_raw)) ],
     Raise (AttributeError c)).
Proof.
  intros Hload Hlo Hhi Hc. unfold main. rewrite Hload.
  cbn [app_bind emit lift ret app].
  now rewrite (form_block_missing bank_raw s lo hi c Hlo Hhi Hc).
Qed.

(** X18: when every age cell of the loaded table is empty, in
    particular when the table has no rows, the run stops with
    [ValueError] after the preview of the raw table. *)
Theorem table_without_ages_stops (file : upload) (bank_raw : DataFrame)
    (graph_type : graph) (s : selection) :
  load_data read_csv read_excel file = Ok bank_raw ->
  has_column bank_raw "age" = true ->
  forallb isna (age_cells bank_raw) = true ->
  main read_csv read_excel (Some file) graph_type s
  = ([ Write 0 (Text "# Telemarketing Analysis");
       Markdown "---";
       Write 0 (Text "## Before filtering");
       Write 0 (Frame (head bank_raw));
       Write 0 (Text "### Columns in the dataset:");
       Write 0 (Names (columns bank_raw)) ],
     Raise ValueError).
Proof.
  intros Hload Ha Hn. unfold main. rewrite Hload.
  cbn [app_bind emit lift ret app]. unfold form_block.
  now rewrite (max_age_of_no_age bank_raw Ha Hn).
Qed.

End Runs.

(** ** Concrete runs of the further properties *)

Lemma filter_chain_missing_column_witness :
  filter_chain no_loan_bank
    (mkSel (25, 45) [VStr "all"] [VStr "all"] [VStr "all"] [VStr "all"]
           [VStr "yes"] [VStr "all"] [VStr "all"] [VStr "all"])
  = Raise (KeyError "loan").
Proof.
  apply (filter_chain_missing_column no_loan_bank
           (mkSel (25, 45) [VStr "all"] [VStr "all"] [VStr "all"] [VStr "all"]
                  [VStr "yes"] [VStr "all"] [VStr "all"] [VStr "all"])
           ("loan", [VStr "yes"])); reflexivity.
Defined.

Lemma multiselect_filter_idempotent_witness :
  exists out,
    multiselect_filter sample_bank "marital" [VStr "single"] = Ok out /\
    multiselect_filter out "marital" [VStr "single"] = Ok out.
Proof.
  eexists. split; [reflexivity|].
  apply (multiselect_filter_idempotent sample_bank "marital" [VStr "single"]).
  reflexivity.
Defined.

Lemma multiselect_filter_commute_witness :
  exists a',
    multiselect_filter sample_bank "marital" [VStr "single"] = Ok a' /\
    multiselect_filter a' "job" [VStr "admin"]
    = Ok (reset_index (getitem_mask sample_bank [false; false; true])).
Proof.
  apply (multiselect_filter_commute sample_bank
           (reset_index (getitem_mask sample_bank [true; false; true]))
           (reset_index (getitem_mask sample_bank [false; false; true]))
           "job" "marital" [VStr "admin"] [VStr "single"]); reflexivity.
Defined.

Lemma query_age_errors_witness :
  query_age no_outcome_bank 25 40 <> Raise TypeError /\
  query_age text_age_bank 25 40 = Raise TypeError /\
  query_age (mkDF ["job"] []) 25 40 = Raise (UndefinedVariableError "age").
Proof.
  split; [discriminate|]. split.
  - apply (proj2 (query_age_errors text_age_bank 25 40)); reflexivity.
  - apply (proj1 (query_age_errors (mkDF ["job"] []) 25 40)); reflexivity.
Defined.

Lemma query_age_empty_range_witness :
  query_age sample_bank 40 25 = Ok (mkDF (columns sample_bank) []).
Proof.
  apply (query_age_empty_range sample_bank 40 25); reflexivity.
Defined.

Lemma slider_bounds_witness :
  min_age fractional_age_bank = Ok 30 /\
  max_age fractional_age_bank = Ok 50 /\
  30 <= 50 /\
  (exists m M,
     In m (age_cells fractional_age_bank) /\
     In M (age_cells fractional_age_bank) /\
     py_int m = Ok 30 /\ py_int M = Ok 50 /\
     forall v, In v (age_cells fractional_age_bank) -> is_num v = true ->
               num_leb m v = true /\ num_leb v M = true) /\
  (forall a, In (VInt a) (age_cells fractional_age_bank) -> 30 <= a <= 50) /\
  (forall w f, In (VFloat w f) (age_cells fractional_age_bank) ->
               30 - 1 <= w <= 50).
Proof.
  split; [reflexivity|]. split; [reflexivity|].
  apply (slider_bounds fractional_age_bank 30 50); reflexivity.
Defined.

Lemma filter_chain_index_witness :
  exists out,
    filter_chain sample_bank sample_selection = Ok out /\
    all_selected sample_selection = false /\
    labels out = range_index (List.length (rows out)).
Proof.
  eexists. split; [reflexivity|]. split; [reflexivity|].
  refine (proj2 (filter_chain_index sample_bank sample_selection _ eq_refl) eq_refl).
Defined.

Lemma filter_chain_idempotent_witness :
  exists out,
    filter_chain sample_bank sample_selection = Ok out /\
    filter_chain out sample_selection = Ok out.
Proof.
  eexists. split; [reflexivity|].
  apply (filter_chain_idempotent sample_bank sample_selection). reflexivity.
Defined.

Lemma default_selection_rows_witness :
  exists out,
    filter_chain fractional_age_bank (default_selection 30 50) = Ok out /\
    Subseq (rows out) (rows fractional_age_bank) /\
    (forall r, In r (row_values out) ->
       In r (row_values fractional_age_bank) /\
       aged (columns fractional_age_bank) r = true) /\
    (forall r a, In r (row_values fractional_age_bank) ->
       lookup (columns fractional_age_bank) r "age" = Some (VInt a) ->
       In r (row_values out)) /\
    (forall r w f, In r (row_values fractional_age_bank) ->
       lookup (columns fractional_age_bank) r "age" = Some (VFloat w f) ->
       (In r (row_values out) <-> 30 <= w < 50)).
Proof.
  apply (default_selection_rows fractional_age_bank (default_selection 30 50)
           30 50); reflexivity.
Defined.

Lemma distribution_entries_witness :
  exists d,
    target_perc sample_bank = Ok d /\
    NoDup (map fst d) /\
    (forall k, In k (map fst d) <-> In k (outcome_cells sample_bank) /\ k <> NaN) /\
    (forall k p, In (k, p) d ->
       p = share (outcome_cells sample_bank) k /\ (0 < p /\ p <= 100)%Q).
Proof.
  eexists. split; [reflexivity|].
  apply (distribution_entries sample_bank). reflexivity.
Defined.

Lemma mixed_outcomes_raise_witness :
  target_perc mixed_outcome_bank = Raise TypeError /\
  raw_block mixed_outcome_bank = ([], Raise TypeError) /\
  filtered_block mixed_outcome_bank = ([], Raise TypeError).
Proof.
  apply (mixed_outcomes_raise mixed_outcome_bank); reflexivity.
Defined.

Lemma filter_chain_monotone_witness :
  exists out1 out2,
    filter_chain sample_bank sample_selection = Ok out1 /\
    filter_chain sample_bank (default_selection 20 60) = Ok out2 /\
    Subseq (row_values out1) (row_values out2).
Proof.
  eexists. eexists. split; [reflexivity|]. split; [reflexivity|].
  apply (filter_chain_monotone sample_bank sample_selection
           (default_selection 20 60)); reflexivity.
Defined.

Lemma export_ignores_index_witness :
  to_excel (Table sample_bank) = to_excel (Table (reset_index (head sample_bank))) /\
  to_excel (Perc [(VStr "no", (200 # 3)%Q); (VStr "yes", (100 # 3)%Q)])
  = to_excel (Perc [(VInt 0, (200 # 3)%Q); (VInt 1, (100 # 3)%Q)]).
Proof.
  destruct export_ignores_index as [A B].
  split; [apply A; reflexivity | apply B; reflexivity].
Defined.

Lemma options_spec_witness :
  exists u,
    options sample_bank "job" = Ok (u ++ [VStr "all"])%list /\
    NoDup u /\
    forall v, In v u <-> In v [VStr "admin"; VStr "blue-collar"; VStr "admin"].
Proof.
  apply (options_spec sample_bank "job"). reflexivity.
Defined.

Lemma page_with_outcome_witness :
  filter_chain sample_bank sample_selection = Ok sample_filtered /\
  exists raw_perc perc,
    target_perc sample_bank = Ok raw_perc /\
    target_perc sample_filtered = Ok perc /\
    main (upload := unit) (fun _ _ => Ok sample_bank) (fun _ => Raise ValueError)
         (Some tt) Bar sample_selection
    = ([ Write 0 (Text "# Telemarketing Analysis");
         Markdown "---";
         Write 0 (Text "## Before filtering");
         Write 0 (Frame (head sample_bank));
         Write 0 (Text "### Columns in the dataset:");
         Write 0 (Names (columns sample_bank));
         Write 0 (Text "## After filtering");
         Write 0 (Frame (head sample_filtered));
         DownloadButton 0 (to_excel (Table sample_filtered)) "bank_filtered.xlsx";
         Markdown "---";
         Write 0 (Text "### Columns after filtering:");
         Write 0 (Names (columns sample_filtered));
         Write 0 (Text "### Bank Raw Target Perc:");
         Write 0 (Percentages raw_perc);
         Write 0 (Text "### Bank Target Perc:");
         Write 0 (Percentages perc);
         Write 1 (Text "### Original proportion");
         Write 1 (Percentages raw_perc);
         DownloadButton 1 (to_excel (Perc raw_perc)) "bank_raw_y.xlsx";
         Write 2 (Text "### Proportion of filtered table");
         Write 2 (Percentages perc);
         DownloadButton 2 (to_excel (Perc perc)) "bank_y.xlsx";
         Markdown "---";
         Write 0 (Text "## Acceptance proportion");
         Pyplot (BarPair raw_perc perc) ],
       Ok tt).
Proof.
  split; [reflexivity|].
  apply (page_with_outcome unit (fun _ _ => Ok sample_bank)
           (fun _ => Raise ValueError) tt sample_bank sample_filtered Bar
           sample_selection 30 50); reflexivity.
Defined.

Lemma missing_form_column_stops_witness :
  first_missing no_loan_bank = Some "loan" /\
  main (upload := unit) (fun _ _ => Ok no_loan_bank) (fun _ => Raise ValueError)
       (Some tt) Bar (default_selection 30 50)
  = ([ Write 0 (Text "# Telemarketing Analysis");
       Markdown "---";
       Write 0 (Text "## Before filtering");
       Write 0 (Frame (head no_loan_bank));
       Write 0 (Text "### Columns in the dataset:");
       Write 0 (Names (columns no_loan_bank)) ],
     Raise (AttributeError "loan")).
Proof.
  split; [reflexivity|].
  apply (missing_form_column_stops unit (fun _ _ => Ok no_loan_bank)
           (fun _ => Raise ValueError) tt no_loan_bank Bar
           (default_selection 30 50) 30 50 "loan"); reflexivity.
Defined.

Lemma table_without_ages_stops_witness :
  main (upload := unit) (fun _ _ => Ok header_only_bank)
       (fun _ => Raise ValueError) (Some tt) Bar (default_selection 0 0)
  = ([ Write 0 (Text "# Telemarketing Analysis");
       Markdown "---";
       Write 0 (Text "## Before filtering");
       Write 0 (Frame (head header_only_bank));
       Write 0 (Text "### Columns in the dataset:");
       Write 0 (Names (columns header_only_bank)) ],
     Raise ValueError).
Proof.
  apply (table_without_ages_stops unit (fun _ _ => Ok header_only_bank)
           (fun _ => Raise ValueError) tt header_only_bank Bar
           (default_selection 0 0)); reflexivity.
Defined.
